(** * Eurostat energy platform: the cube decoder and the forecast selector

    A shallow embedding of [src/etl/transform.py] and
    [src/ml/forecast_utils.py], and the properties of the specification
    that concern them.

    Python integers are unbounded, hence [Z]; [%] and [//] round towards
    minus infinity and give the remainder the sign of the divisor, which
    is what [Z.modulo] and [Z.div] do.  A Python [dict] is iterated in
    insertion order and the code relies on that order, so a dict is an
    association list whose keys are pairwise distinct; a lookup takes the
    first binding.  Exceptions are made explicit in a result type. *)

From Stdlib Require Import String Ascii DecimalString ZArith List Bool Lia Sorted.
Import ListNotations.
Local Open Scope Z_scope.

(** ** Python primitives *)

Module Py.

Inductive exn : Type :=
| ZeroDivisionError
| IndexError
| KeyError (key : string)
| ValueError
| LibraryError.

Inductive result (A : Type) : Type :=
| Ok (a : A)
| Raise (e : exn).
Arguments Ok {A} a.
Arguments Raise {A} e.

Definition bind {A B} (c : result A) (k : A -> result B) : result B :=
  match c with
  | Ok a => k a
  | Raise e => Raise e
  end.

Definition of_option {A} (e : exn) (o : option A) : result A :=
  match o with
  | Some a => Ok a
  | None => Raise e
  end.

(** [l[i]] for a list: a negative index counts from the end. *)
Definition index {A} (l : list A) (i : Z) : result A :=
  let n := Z.of_nat (length l) in
  let j := if i <? 0 then n + i else i in
  if (j <? 0) || (n <=? j) then Raise IndexError
  else of_option IndexError (nth_error l (Z.to_nat j)).

(** The position a slice bound denotes in a sequence of length [n]. *)
Definition clamp (n : nat) (i : Z) : nat :=
  let len := Z.of_nat n in
  if i <? 0 then Z.to_nat (Z.max 0 (len + i)) else Z.to_nat (Z.min i len).

(** [l[:stop]] and [l[start:]]. *)
Definition slice_to {A} (l : list A) (stop : Z) : list A :=
  firstn (clamp (length l) stop) l.
Definition slice_from {A} (l : list A) (start : Z) : list A :=
  skipn (clamp (length l) start) l.

(** [d.get(k)] on a dict with string keys. *)
Fixpoint get {A} (d : list (string * A)) (k : string) : option A :=
  match d with
  | [] => None
  | (k', v) :: d' => if String.eqb k' k then Some v else get d' k
  end.

(** [d[k]]. *)
Definition item {A} (d : list (string * A)) (k : string) : result A :=
  of_option (KeyError k) (get d k).

Definition keys {A} (d : list (string * A)) : list string := map fst d.

(** [k in d]. *)
Definition contains {A} (d : list (string * A)) (k : string) : bool :=
  match get d k with Some _ => true | None => false end.

(** A comprehension whose body can raise: the first exception, in
    iteration order, is the one that propagates. *)
Fixpoint traverse {A B} (f : A -> result B) (l : list A) : result (list B) :=
  match l with
  | [] => Ok []
  | a :: l' => bind (f a) (fun b => bind (traverse f l') (fun bs => Ok (b :: bs)))
  end.

End Py.

Declare Scope py_scope.
Notation "x <- c ;; k" := (Py.bind c (fun x => k))
  (at level 61, c at next level, right associativity) : py_scope.
Local Open Scope py_scope.
Import Py.

(** ** The index decoder ([unravel_index]) *)

Module Decoder.

(** The loop of [unravel_index]: [rsizes] is [reversed(sizes)], [coords]
    the list being appended to, [flat_index] the variable being divided. *)
Fixpoint unravel_loop (rsizes : list Z) (coords : list Z) (flat_index : Z)
  : result (list Z) :=
  match rsizes with
  | [] => Ok coords
  | size :: rest =>
      if size =? 0 then Raise ZeroDivisionError
      else unravel_loop rest (coords ++ [flat_index mod size]) (flat_index / size)
  end.

Definition unravel_index (flat_index : Z) (sizes : list Z) : result (list Z) :=
  coords <- unravel_loop (rev sizes) [] flat_index ;;
  Ok (rev coords).

Definition product (l : list Z) : Z := fold_right Z.mul 1 l.

(** The re-encoding the specification names:
    [sum(coord[d] * product(S[d+1:]) for d in dims)]. *)
Definition ravel_index (coord sizes : list Z) : Z :=
  fold_right Z.add 0
    (map (fun d => nth d coord 0 * product (skipn (S d) sizes))
         (seq 0 (length sizes))).

Definition positive_sizes (sizes : list Z) : Prop := Forall (fun s => 0 < s) sizes.

(** Every coordinate lies within its dimension. *)
Definition in_range (coords sizes : list Z) : Prop :=
  Forall2 (fun c s => 0 <= c < s) coords sizes.

End Decoder.

(** ** The cube-to-records transformer ([transform_dataset]) *)

(** What the transformer takes from the Python runtime and from pandas:
    the float type, [float(s)] and [int(s)] on text ([None] stands for
    the [ValueError]), the null test and the cell equality pandas applies
    to a float column, and [pd.to_datetime(s, format='%Y')] reduced to
    the year it denotes. *)
Class Builtins : Type := {
  pyfloat : Type;
  float_of_str : string -> option pyfloat;
  float_isnull : pyfloat -> bool;
  float_same : pyfloat -> pyfloat -> bool;
  int_of_str : string -> option Z;
  year_of_str : string -> option Z
}.

Module Transform.
Import Decoder.

Definition dict (A : Type) : Type := list (string * A).

(** [dim_info['category']], with its ['label'] and ['index'] entries;
    each may be absent from the JSON object. *)
Record category : Type := {
  cat_label : option (dict string);
  cat_index : option (dict Z)
}.

Record dim_info : Type := { dim_category : option category }.

Section WithBuiltins.
Context {B : Builtins}.

(** A JSON value of the sparse map: a number, a text or null. *)
Inductive raw : Type :=
| RawNum (x : pyfloat)
| RawStr (s : string)
| RawNull.

(** The dataset object; ['dimension'], ['size'] and ['value'] are
    present (the fetch step rejects an object without them), ['id']
    is optional. *)
Record dataset : Type := {
  dimension : dict dim_info;
  id : option (list string);
  size : list Z;
  value : dict raw
}.

(** One element of [result], before the DataFrame is built. *)
Record record : Type := {
  dataset_code : string;
  country_code : option string;
  country_name : option string;
  indicator_code : option string;
  indicator_label : option string;
  unit_code : option string;
  unit_label : option string;
  time : option string;
  val : pyfloat
}.

(** A row of the returned DataFrame: [time] parsed ([None] is NaT)
    and [load_timestamp] added. *)
Record observation : Type := {
  obs_fields : record;
  obs_time : option Z;
  load_timestamp : Z
}.

(** [dim_info.get("category", {}).get("label", {})] *)
Definition labels_or_empty (info : dim_info) : dict string :=
  match dim_category info with
  | Some c => match cat_label c with Some l => l | None => [] end
  | None => []
  end.

Fixpoint detect_indicator_dimension (dimensions : dict dim_info)
         (indicators : list string) : option string :=
  match dimensions with
  | [] => None
  | (dim_name, info) :: rest =>
      if existsb (fun ind => contains (labels_or_empty info) ind) indicators
      then Some dim_name
      else detect_indicator_dimension rest indicators
  end.

(** [{k: dim[k]['category']['label'] for k in dim if 'category' in dim[k]}] *)
Fixpoint build_labels (dim : dict dim_info) : result (dict (dict string)) :=
  match dim with
  | [] => Ok []
  | (k, info) :: rest =>
      match dim_category info with
      | None => build_labels rest
      | Some c =>
          l <- of_option (KeyError "label") (cat_label c) ;;
          ls <- build_labels rest ;;
          Ok ((k, l) :: ls)
      end
  end.

(** [[dim[d]['category']['index'] for d in dim_ids]] *)
Definition build_indexes (dim : dict dim_info) (dim_ids : list string)
  : result (list (dict Z)) :=
  traverse (fun d =>
              info <- item dim d ;;
              c <- of_option (KeyError "category") (dim_category info) ;;
              of_option (KeyError "index") (cat_index c))
           dim_ids.

(** [float(val)] under [try]: [None] is the [continue] branch. *)
Definition to_float (v : raw) : option pyfloat :=
  match v with
  | RawNum x => Some x
  | RawStr s => float_of_str s
  | RawNull => None
  end.

(** [d[k] = v] on a dict: an existing key keeps its place. *)
Fixpoint set {A} (d : dict A) (k : string) (v : A) : dict A :=
  match d with
  | [] => [(k, v)]
  | (k', v') :: d' =>
      if String.eqb k' k then (k', v) :: d' else (k', v') :: set d' k v
  end.

(** [[list(indexes[i].keys())[idx[i]] for i in range(len(idx))]] *)
Definition entry_keys (indexes : list (dict Z)) (idx : list Z)
  : result (list string) :=
  traverse (fun i =>
              ix <- index indexes (Z.of_nat i) ;;
              c <- index idx (Z.of_nat i) ;;
              index (keys ix) c)
           (seq 0 (length idx)).

(** [{dim_ids[i]: keys[i] for i in range(len(dim_ids))}] *)
Definition entry_dim_map (dim_ids keys : list string) : result (dict string) :=
  pairs <- traverse (fun i =>
                       d <- index dim_ids (Z.of_nat i) ;;
                       k <- index keys (Z.of_nat i) ;;
                       Ok (d, k))
                    (seq 0 (length dim_ids)) ;;
  Ok (fold_left (fun m p => set m (fst p) (snd p)) pairs []).

(** [d.get(k, default)] where [k] itself may be [None]; no JSON
    object has a null key. *)
Definition get_or (d : dict string) (k : option string)
           (default : option string) : option string :=
  match k with
  | Some k' => match get d k' with Some v => Some v | None => default end
  | None => default
  end.

(** [labels.get(name, {})] *)
Definition labels_of (labels : dict (dict string)) (name : string) : dict string :=
  match get labels name with Some l => l | None => [] end.

(** The body of the loop over [value_data.items()]: [Ok None] is a
    [continue], [Ok (Some r)] the record appended to [result]. *)
Definition entry_record (dataset_code : string) (sizes : list Z)
           (dim_ids : list string) (labels : dict (dict string))
           (indexes : list (dict Z)) (indicator_dim : string)
           (target_indicators : list string) (entry : string * raw)
  : result (option record) :=
  let '(flat_index_str, v) := entry in
  match to_float v with
  | None => Ok None
  | Some val_float =>
      n <- of_option ValueError (int_of_str flat_index_str) ;;
      idx <- unravel_index n sizes ;;
      keys <- entry_keys indexes idx ;;
      dim_map <- entry_dim_map dim_ids keys ;;
      let indicator := get dim_map indicator_dim in
      match indicator with
      | None => Ok None
      | Some ind =>
          if negb (existsb (String.eqb ind) target_indicators) then Ok None
          else Ok (Some {|
            dataset_code := dataset_code;
            country_code := get dim_map "geo";
            country_name := get_or (labels_of labels "geo")
                                   (get dim_map "geo") (get dim_map "geo");
            indicator_code := indicator;
            indicator_label := get_or (labels_of labels indicator_dim)
                                      indicator None;
            unit_code := get dim_map "unit";
            unit_label := get_or (labels_of labels "unit")
                                 (get dim_map "unit") None;
            time := get dim_map "time";
            val := val_float |})
      end
  end.

(** The loop: entries in dict order, the first exception ends it. *)
Fixpoint collect (f : string * raw -> result (option record))
         (entries : dict raw) : result (list record) :=
  match entries with
  | [] => Ok []
  | e :: rest =>
      o <- f e ;;
      rs <- collect f rest ;;
      Ok (match o with Some r => r :: rs | None => rs end)
  end.

Definition opt_same (a b : option string) : bool :=
  match a, b with
  | Some x, Some y => String.eqb x y
  | None, None => true
  | _, _ => false
  end.

(** Row equality as [duplicated] sees it: every column equal. *)
Definition same_record (a b : record) : bool :=
  String.eqb (dataset_code a) (dataset_code b)
  && opt_same (country_code a) (country_code b)
  && opt_same (country_name a) (country_name b)
  && opt_same (indicator_code a) (indicator_code b)
  && opt_same (indicator_label a) (indicator_label b)
  && opt_same (unit_code a) (unit_code b)
  && opt_same (unit_label a) (unit_label b)
  && opt_same (time a) (time b)
  && float_same (val a) (val b).

(** [df.duplicated()]: a row is marked when an earlier row equals it. *)
Fixpoint duplicated_from (seen : list record) (df : list record) : list bool :=
  match df with
  | [] => []
  | r :: rest => existsb (same_record r) seen :: duplicated_from (seen ++ [r]) rest
  end.
Definition duplicated (df : list record) : list bool := duplicated_from [] df.

Definition count_true (l : list bool) : Z :=
  Z.of_nat (length (filter (fun b => b) l)).

(** [df.drop_duplicates()]: rows not marked by [duplicated]. *)
Definition drop_duplicates (df : list record) : list record :=
  map fst (filter (fun p => negb (snd p)) (combine df (duplicated df))).

Definition is_none {A} (o : option A) : bool :=
  match o with Some _ => false | None => true end.

(** The null cells of a row in the [cols_check] columns. *)
Definition null_cells (r : record) : list bool :=
  [ is_none (country_code r); is_none (country_name r);
    is_none (indicator_code r); is_none (indicator_label r);
    is_none (time r); float_isnull (val r) ].

(** [df.dropna(subset=cols_check)] *)
Definition dropna (df : list record) : list record :=
  filter (fun r => negb (existsb (fun b => b) (null_cells r))) df.

(** [pd.to_datetime(df['time'], format='%Y')] on one cell. *)
Definition parse_time (r : record) : result (option Z) :=
  match time r with
  | None => Ok None
  | Some s => y <- of_option ValueError (year_of_str s) ;; Ok (Some y)
  end.

(** [transform_dataset]; [now] is the value of [datetime.now()], and
    the progress messages written to standard output are left out. *)
Definition transform_dataset (now : Z) (dataset_code : string)
           (data : dataset) (target_indicators : list string)
  : result (list observation) :=
  let dim := dimension data in
  let dim_ids := match id data with Some l => l | None => keys dim end in
  let sizes := size data in
  let value_data := value data in
  labels <- build_labels dim ;;
  indexes <- build_indexes dim dim_ids ;;
  match detect_indicator_dimension dim target_indicators with
  | None => Ok []
  | Some indicator_dim =>
      if String.eqb indicator_dim "" then Ok []
      else
        result <- collect (entry_record dataset_code sizes dim_ids labels
                                        indexes indicator_dim target_indicators)
                          value_data ;;
        match result with
        | [] => Ok []
        | _ :: _ =>
            let df := result in
            let num_duplicates := count_true (duplicated df) in
            let df := if 0 <? num_duplicates then drop_duplicates df else df in
            let missing_count :=
              fold_right Z.add 0 (map (fun r => count_true (null_cells r)) df) in
            let df := if 0 <? missing_count then dropna df else df in
            times <- traverse parse_time df ;;
            Ok (map (fun p => {| obs_fields := fst p; obs_time := snd p;
                                 load_timestamp := now |})
                    (combine df times))
        end
  end.

End WithBuiltins.

Arguments raw : clear implicits.
Arguments dataset : clear implicits.
Arguments record : clear implicits.
Arguments observation : clear implicits.

End Transform.

(** ** The forecasting engine ([forecast_utils.py]) *)

(** A row of the matrix [X]: the columns of [feature_cols], in order. *)
Record features (num : Type) : Type := {
  f_year : Z;
  f_lags : list num;
  f_roll_mean_3 : num;
  f_roll_std_3 : num
}.
Arguments f_year {num} _.
Arguments f_lags {num} _.
Arguments f_roll_mean_3 {num} _.
Arguments f_roll_std_3 {num} _.

(** What the engine takes from numpy, pandas, scikit-learn, xgboost and
    statsmodels.  [num] is the float of a value that is present (the
    loader stores no row whose value is missing); [flt] is [<] on floats;
    [group_mean] is the mean of one [groupby] group, [rolling_mean] and
    [rolling_std] the statistics of one full window; [rmse y p] is
    [sqrt(mean_squared_error(y, p))].  Fitting may raise; a fitted
    smoothing model answers [forecast(n)] with a series whose index is
    the library's choice. *)
Class Learners : Type := {
  num : Type;
  zero : num;
  flt : num -> num -> bool;
  group_mean : list num -> num;
  rolling_mean : list num -> num;
  rolling_std : list num -> num;
  np_mean : list num -> num;
  np_std : list num -> num;
  rmse : list num -> list num -> result num;
  xgb_model : Type;
  xgb_fit : list (features num) -> list num -> result xgb_model;
  xgb_predict : xgb_model -> features num -> num;
  es_model : Type;
  es_fit : list (Z * num) -> result es_model;
  es_forecast : es_model -> Z -> list (Z * num)
}.

Module Forecast.

Record datetime : Type := { dt_year : Z; dt_month : Z; dt_day : Z }.

Inductive segment : Type := historical | forecast.

(** [range(lo, hi)] *)
Definition py_range (lo hi : Z) : list Z :=
  map (fun k => lo + Z.of_nat k) (seq 0 (Z.to_nat (hi - lo))).

(** A stable sort on an integer key ([sort_index], [sort_values("year")]):
    rows with equal keys keep their order. *)
Fixpoint insert_by {A} (key : A -> Z) (x : A) (l : list A) : list A :=
  match l with
  | [] => [x]
  | y :: l' => if key x <=? key y then x :: l else y :: insert_by key x l'
  end.

Definition sort_by {A} (key : A -> Z) (l : list A) : list A :=
  fold_right (insert_by key) [] l.

Fixpoint all_some {A} (l : list (option A)) : option (list A) :=
  match l with
  | [] => Some []
  | Some a :: l' => option_map (cons a) (all_some l')
  | None :: _ => None
  end.

Fixpoint filter_some {A B} (f : A -> option B) (l : list A) : list B :=
  match l with
  | [] => []
  | a :: l' =>
      match f a with
      | Some b => b :: filter_some f l'
      | None => filter_some f l'
      end
  end.

Definition is_empty {A} (l : list A) : bool :=
  match l with [] => true | _ :: _ => false end.

Definition len {A} (l : list A) : Z := Z.of_nat (length l).

(** The column name [f"lag{lag}"]. *)
Definition lag_name (lag : nat) : string :=
  ("lag" ++ NilEmpty.string_of_uint (Nat.to_uint lag))%string.

Section WithLearners.
Context {L : Learners}.

(** A row of the table handed to [run_forecast], as read back from the
    observations table: [time] is a date, of which only the year is
    used, and [value] is present. *)
Record row : Type := {
  geo : string;
  indicator : string;
  time : datetime;
  value : num
}.

(** A pandas Series indexed by year. *)
Definition series : Type := list (Z * num).

(** [groupby("year")]: the groups in ascending key order, each with its
    values in row order. *)
Fixpoint group_insert (y : Z) (v : num) (groups : list (Z * list num))
  : list (Z * list num) :=
  match groups with
  | [] => [(y, [v])]
  | (y', vs) :: rest =>
      if y <? y' then (y, [v]) :: groups
      else if y =? y' then (y', vs ++ [v]) :: rest
      else (y', vs) :: group_insert y v rest
  end.

Definition groupby_year (df : list (Z * num)) : list (Z * list num) :=
  fold_left (fun groups p => group_insert (fst p) (snd p) groups) df [].

Definition _get_series (data : list row) (country indicator_ : string) : series :=
  let df := filter (fun r => String.eqb (geo r) country
                             && String.eqb (indicator r) indicator_) data in
  if is_empty df then []
  else
    let df := map (fun r => (dt_year (time r), value r)) df in
    sort_by fst (map (fun g => (fst g, group_mean (snd g))) (groupby_year df)).

(** A row of [df] in [_make_supervised] before [dropna]; a cell that
    pandas leaves as NaN is [None]. *)
Record frame_row : Type := {
  r_year : Z;
  r_value : num;
  r_lags : list (option num);
  r_roll_mean_3 : option num;
  r_roll_std_3 : option num
}.

(** A row of [df] after [dropna]. *)
Record sup_row : Type := {
  year : Z;
  val : num;
  lags : list num;
  roll_mean_3 : num;
  roll_std_3 : num
}.

(** [df["value"].shift(lag)] at position [i] *)
Definition shift (values : list num) (lag i : nat) : option num :=
  if (i <? lag)%nat then None else nth_error values (i - lag).

(** The window of [rolling(window=3)] ending at position [i] *)
Definition window_3 (values : list num) (i : nat) : option (list num) :=
  if (i <? 2)%nat then None else Some (firstn 3 (skipn (i - 2) values)).

(** The row at position [i] of the frame built from [s], whose value
    column is [values]; [p] is the element of [s] at that position. *)
Definition make_row (values : list num) (n_lags : nat) (ip : nat * (Z * num))
  : frame_row :=
  let i := fst ip in
  {| r_year := fst (snd ip);
     r_value := snd (snd ip);
     r_lags := map (fun lag => shift values lag i) (seq 1 n_lags);
     r_roll_mean_3 := option_map rolling_mean (window_3 values i);
     r_roll_std_3 := option_map rolling_std (window_3 values i) |}.

Definition frame (s : series) (n_lags : nat) : list frame_row :=
  map (make_row (map snd s) n_lags) (combine (seq 0 (length s)) s).

Definition complete_row (r : frame_row) : option sup_row :=
  match all_some (r_lags r), r_roll_mean_3 r, r_roll_std_3 r with
  | Some ls, Some m, Some sd =>
      Some {| year := r_year r; val := r_value r; lags := ls;
              roll_mean_3 := m; roll_std_3 := sd |}
  | _, _, _ => None
  end.

(** [df.dropna()] *)
Definition dropna (df : list frame_row) : list sup_row :=
  filter_some complete_row df.

Definition features_of (r : sup_row) : features num :=
  {| f_year := year r; f_lags := lags r;
     f_roll_mean_3 := roll_mean_3 r; f_roll_std_3 := roll_std_3 r |}.

Definition _make_supervised (s : series) (n_lags : nat)
  : list sup_row * list (features num) * list num * list string :=
  let df := dropna (frame s n_lags) in
  if is_empty df then (df, [], [], [])
  else
    let feature_cols :=
      ("year" :: map lag_name (seq 1 n_lags) ++ ["roll_mean_3"; "roll_std_3"])%string in
    (df, map features_of df, map val df, feature_cols).

(** What a forecaster returns: [(history_df, future_df, rmse, name)],
    the first three [None] when the data do not suffice. *)
Definition outcome : Type :=
  (option (list (Z * num)) * option (list (Z * num)) * option num * string)%type.

(** The feature row of one future step, from the working history. *)
Definition future_feats (year_ : Z) (history_values : list num)
  : result (features num) :=
  ls <- traverse (fun lag =>
                    if lag <=? len history_values
                    then index history_values (- lag)
                    else index history_values (-1))
                 (py_range 1 4) ;;
  let window_vals :=
    if 3 <=? len history_values then slice_from history_values (-3)
    else history_values in
  Ok {| f_year := year_;
        f_lags := ls;
        f_roll_mean_3 := np_mean window_vals;
        f_roll_std_3 := if 1 <? len window_vals then np_std window_vals else zero |}.

(** The recursive forecast: [steps] is what is left of
    [range(1, horizon + 1)]; the result is the final [history_values]
    and [future_rows]. *)
Fixpoint forecast_loop (model : xgb_model) (last_year : Z) (steps : list Z)
         (history_values : list num) (future_rows : list (Z * num))
  : result (list num * list (Z * num)) :=
  match steps with
  | [] => Ok (history_values, future_rows)
  | step :: rest =>
      let year_ := last_year + step in
      feats <- future_feats year_ history_values ;;
      let y_future := xgb_predict model feats in
      forecast_loop model last_year rest
                    (history_values ++ [y_future])
                    (future_rows ++ [(year_, y_future)])
  end.

Definition _train_xgb (s : series) (horizon test_size : Z) : result outcome :=
  let '(base_df, X, y, feature_cols) := _make_supervised s 3 in
  if is_empty base_df || (len base_df <=? test_size + 1)
  then Ok (None, None, None, "XGBoost (insufficient data)"%string)
  else
    let X_train := slice_to X (- test_size) in
    let X_test := slice_from X (- test_size) in
    let y_train := slice_to y (- test_size) in
    let y_test := slice_from y (- test_size) in
    model <- xgb_fit X_train y_train ;;
    let y_pred := map (xgb_predict model) X_test in
    rmse_ <- rmse y_test y_pred ;;
    let history_values := map val base_df in
    last_year <- index (map year base_df) (-1) ;;
    final <- forecast_loop model last_year (py_range 1 (horizon + 1))
                           history_values [] ;;
    let future_rows := snd final in
    let history_df := map (fun r => (year r, val r)) base_df in
    Ok (Some history_df, Some future_rows, Some rmse_, "XGBoost"%string).

Definition _train_es (s : series) (horizon test_size : Z) : result outcome :=
  if len s <=? test_size + 2
  then Ok (None, None, None, "ExponentialSmoothing (insufficient data)"%string)
  else
    let train := slice_to s (- test_size) in
    let test := slice_from s (- test_size) in
    fit <- es_fit train ;;
    let es_test_forecast := es_forecast fit test_size in
    rmse_ <- rmse (map snd test) (map snd es_test_forecast) ;;
    full_fit <- es_fit s ;;
    let future_forecast := es_forecast full_fit horizon in
    let history_df := sort_by fst s in
    let future_df := sort_by fst future_forecast in
    Ok (Some history_df, Some future_df, Some rmse_, "ExponentialSmoothing"%string).

(** An element of [candidates]: [(name, rmse, hist, future)]. *)
Definition candidate : Type :=
  (string * num * list (Z * num) * list (Z * num))%type.

Definition candidate_of (name : string) (o : outcome) : list candidate :=
  match o with
  | (Some hist, Some future, Some r, _) => [(name, r, hist, future)]
  | _ => []
  end.

Definition cand_rmse (c : candidate) : num := snd (fst (fst c)).

(** [candidates.sort(key=lambda tup: tup[1])]: an element moves in
    front of another only when its key is [<] the other's.  The list has
    at most two elements. *)
Fixpoint insert_candidate (c : candidate) (sorted : list candidate) : list candidate :=
  match sorted with
  | [] => [c]
  | d :: rest =>
      if flt (cand_rmse c) (cand_rmse d) then c :: sorted
      else d :: insert_candidate c rest
  end.

Definition sort_candidates (cs : list candidate) : list candidate :=
  fold_left (fun sorted c => insert_candidate c sorted) cs [].

Definition tagged : Type := (Z * num * segment)%type.

Definition tag (t : segment) (df : list (Z * num)) : list tagged :=
  map (fun p => (fst p, snd p, t)) df.

Definition tagged_year (r : tagged) : Z := fst (fst r).

Definition insufficient : string := "No forecast (insufficient data)".

Definition run_forecast (data : list row) (country indicator_ : string)
           (horizon : Z) : result (list tagged * string) :=
  let s := _get_series data country indicator_ in
  if is_empty s || (len s <? 5) then Ok ([], insufficient)
  else
    let test_size := Z.min 5 (Z.max 2 (len s / 3)) in
    x <- _train_xgb s horizon test_size ;;
    es <- _train_es s horizon test_size ;;
    let candidates :=
      candidate_of "XGBoost" x ++ candidate_of "ExponentialSmoothing" es in
    match sort_candidates candidates with
    | [] => Ok ([], insufficient)
    | (best_name, best_rmse, hist_df, fut_df) :: _ =>
        let forecast_df := tag historical hist_df ++ tag forecast fut_df in
        Ok (sort_by tagged_year forecast_df, best_name)
    end.

(** *** What the specification says, for comparison with the code *)

(** A forecaster's outcome when it does not report insufficient data. *)
Definition sufficient (o : outcome)
  : option (list (Z * num) * list (Z * num) * num) :=
  match o with
  | (Some hist, Some future, Some r, _) => Some (hist, future, r)
  | _ => None
  end.

(** The winner's pairs, tagged by segment and sorted by year, with its name. *)
Definition present (name : string) (hist future : list (Z * num))
  : list tagged * string :=
  (sort_by tagged_year (tag historical hist ++ tag forecast future), name).

(** Selection as the specification words it: candidates that report
    insufficient data are discarded; of two, the smoothing forecaster
    wins when its RMSE is strictly lower, the tree-based one otherwise. *)
Definition select_lower_rmse (x es : outcome) : list tagged * string :=
  match sufficient x, sufficient es with
  | None, None => ([], insufficient)
  | Some (hx, fx, _), None => present "XGBoost" hx fx
  | None, Some (he, fe, _) => present "ExponentialSmoothing" he fe
  | Some (hx, fx, rx), Some (he, fe, re) =>
      if flt re rx then present "ExponentialSmoothing" he fe
      else present "XGBoost" hx fx
  end.

(** The [k]-th most recent value of the history, and, when the history
    has fewer than [k] values, the oldest one (the specification's
    padding) or the latest one. *)
Definition lag_padded_with_oldest (history : list num) (k : nat) : option num :=
  match nth_error (rev history) (k - 1) with
  | Some v => Some v
  | None => hd_error history
  end.

Definition lag_padded_with_latest (history : list num) (k : nat) : option num :=
  match nth_error (rev history) (k - 1) with
  | Some v => Some v
  | None => hd_error (rev history)
  end.

(** The trailing values of the history, three at most. *)
Definition trailing_3 (history : list num) : list num :=
  skipn (length history - 3) history.

Definition has_tag (t : segment) (r : tagged) : bool :=
  match t, snd r with
  | historical, historical => true
  | forecast, forecast => true
  | _, _ => false
  end.

(** The years of one segment of a result, in row order. *)
Definition segment_years (t : segment) (df : list tagged) : list Z :=
  map tagged_year (filter (has_tag t) df).

(** The [horizon] years that follow [last_year]. *)
Definition years_after (last_year horizon : Z) : list Z :=
  map (fun k => last_year + k) (py_range 1 (horizon + 1)).

End WithLearners.

Arguments row : clear implicits.
Arguments series : clear implicits.
Arguments frame_row : clear implicits.
Arguments sup_row : clear implicits.
Arguments outcome : clear implicits.
Arguments candidate : clear implicits.
Arguments tagged : clear implicits.

End Forecast.

(** ** Concrete libraries and data

    Small instances of the two interfaces, used to run the model on
    concrete inputs.  The text parsers read only the numerals that occur
    below (unsigned integers, four-digit years, numbers with one decimal
    place); on these they agree with Python's [int], ['%Y'] and [float]. *)

Module Examples.

Definition digit_of (c : ascii) : option Z :=
  let n := Z.of_N (N_of_ascii c) in
  if (48 <=? n) && (n <=? 57) then Some (n - 48) else None.

Fixpoint digits_from (acc : Z) (s : string) : option Z :=
  match s with
  | EmptyString => Some acc
  | String c s' =>
      match digit_of c with
      | Some d => digits_from (10 * acc + d) s'
      | None => None
      end
  end.

(** An unsigned decimal numeral. *)
Definition decimal (s : string) : option Z :=
  match s with
  | EmptyString => None
  | _ => digits_from 0 s
  end.

(** [ddd.d]: a numeral with one decimal place, counted in tenths. *)
Fixpoint tenths_from (acc : Z) (s : string) : option Z :=
  match s with
  | EmptyString => None
  | String "."%char (String c EmptyString) =>
      option_map (fun d => 10 * acc + d) (digit_of c)
  | String c s' =>
      match digit_of c with
      | Some d => tenths_from (10 * acc + d) s'
      | None => None
      end
  end.

Definition four_digit_year (s : string) : option Z :=
  if (String.length s =? 4)%nat then decimal s else None.

(** Floats as a number of tenths: no value is null. *)
#[export] Instance tenths : Builtins := {|
  pyfloat := Z;
  float_of_str := tenths_from 0;
  float_isnull := fun _ => false;
  float_same := Z.eqb;
  int_of_str := decimal;
  year_of_str := four_digit_year
|}.

Import Transform.

Definition labelled (codes : list (string * string)) : dim_info :=
  {| dim_category :=
       Some {| cat_label := Some codes;
               cat_index := Some (combine (map fst codes)
                                          (map Z.of_nat (seq 0 (length codes)))) |} |}.

(** [MOCK_DIMENSION] and [MOCK_DATASET_RESPONSE] of [tests/test_transform.py]. *)
Definition MOCK_DIMENSION : dict dim_info :=
  [ ("geo", labelled [("DE", "Germany"); ("FR", "France")]);
    ("time", labelled [("2020", "2020"); ("2021", "2021")]);
    ("indic_codes", labelled [("GEP", "Gross Production"); ("X", "Other")]);
    ("unit", labelled [("GWH", "Gigawatt-hour")]) ]%string.

Definition MOCK_DATASET_RESPONSE : dataset tenths :=
  {| dimension := MOCK_DIMENSION;
     id := Some ["geo"; "time"; "indic_codes"; "unit"]%string;
     size := [2; 2; 2; 1];
     value := [ ("0", RawStr "100.5"); ("1", RawStr "200.0");
                ("4", RawStr "150.2"); ("8", RawStr "300.1") ]%string |}.

(** The same cube with one size too few. *)
Definition SHORT_SIZE_RESPONSE : dataset tenths :=
  {| dimension := MOCK_DIMENSION;
     id := Some ["geo"; "time"; "indic_codes"; "unit"]%string;
     size := [2; 2; 2];
     value := [ ("0", RawStr "100.5") ]%string |}.

(** A cube whose geo dimension labels only [DE]. *)
Definition UNLABELLED_GEO_RESPONSE : dataset tenths :=
  {| dimension :=
       [ ("geo", {| dim_category :=
                      Some {| cat_label := Some [("DE", "Germany")];
                              cat_index := Some [("DE", 0); ("FR", 1)] |} |});
         ("time", labelled [("2020", "2020")]);
         ("indic_codes", labelled [("GEP", "Gross Production")]) ]%string;
     id := Some ["geo"; "time"; "indic_codes"]%string;
     size := [2; 1; 1];
     value := [ ("0", RawNum 1005); ("1", RawNum 1502) ]%string |}.

(** The labels, the index tables and the second record of that cube. *)
Definition UNLABELLED_GEO_LABELS : dict (dict string) :=
  [ ("geo", [("DE", "Germany")]); ("time", [("2020", "2020")]);
    ("indic_codes", [("GEP", "Gross Production")]) ]%string.

Definition UNLABELLED_GEO_INDEXES : list (dict Z) :=
  [ [("DE", 0); ("FR", 1)]; [("2020", 0)]; [("GEP", 0)] ]%string.

Definition FR_RECORD : record tenths :=
  {| dataset_code := "test_ds";
     country_code := Some "FR"%string;
     country_name := Some "FR"%string;
     indicator_code := Some "GEP"%string;
     indicator_label := Some "Gross Production"%string;
     unit_code := None;
     unit_label := None;
     time := Some "2020"%string;
     val := 1502 |}.

Definition total (l : list Z) : Z := fold_right Z.add 0 l.

Definition average (l : list Z) : Z := total l / Z.of_nat (length l).

Definition last_point (s : list (Z * Z)) : Z * Z := last s (0, 0).

(** Integer-valued learners: the tree model predicts the rolling mean
    of its feature row, the smoothing model repeats the last value over
    the years that follow its training data, and the error of a
    prediction is its total absolute deviation. *)
#[export] Instance integer_learners : Learners := {|
  num := Z;
  zero := 0;
  flt := Z.ltb;
  group_mean := average;
  rolling_mean := average;
  rolling_std := fun l => Z.abs (last l 0 - hd 0 l);
  np_mean := average;
  np_std := fun l => Z.abs (last l 0 - hd 0 l);
  rmse := fun y p => Ok (total (map (fun yp => Z.abs (fst yp - snd yp)) (combine y p)));
  xgb_model := unit;
  xgb_fit := fun _ _ => Ok tt;
  xgb_predict := fun _ f => f_roll_mean_3 f;
  es_model := list (Z * Z);
  es_fit := fun s => Ok s;
  es_forecast := fun m n =>
    map (fun k => (fst (last_point m) + k, snd (last_point m)))
        (Forecast.py_range 1 (n + 1))
|}.

Import Forecast.

Definition yearly (geo_ indicator_ : string) (first_year : Z) (values : list Z)
  : list (row integer_learners) :=
  map (fun iv => {| geo := geo_; indicator := indicator_;
                    time := {| dt_year := first_year + Z.of_nat (fst iv);
                               dt_month := 1; dt_day := 1 |};
                    value := snd iv |})
      (combine (seq 0 (length values)) values).

(** Seven, four and ten yearly observations of one indicator. *)
Definition seven_years : list (row integer_learners) :=
  yearly "DE" "GEP" 2000 [10; 10; 10; 10; 10; 10; 10].

Definition four_years : list (row integer_learners) :=
  yearly "DE" "GEP" 2000 [10; 12; 14; 16].

Definition ten_years : series integer_learners :=
  [ (2000, 1); (2001, 2); (2002, 4); (2003, 8); (2004, 16);
    (2005, 32); (2006, 64); (2007, 128); (2008, 256); (2009, 512) ].

End Examples.

Import Examples.

(** ** Waiting for the database ([wait_for_db] of [etl/load.py])

    The calls of [psycopg2.connect] are answered by the environment:
    [connect i] is what the call of attempt [i] does, counting from 0.
    A run records how the function ends, how many connections it tried
    and the seconds it slept; the messages it prints are left out. *)

Module Load.

Inductive connection : Type :=
| Connected
| OperationalError.

Inductive ending : Type :=
| Returned
| CouldNotConnect
| SleepValueError.

Record run : Type := {
  ended : ending;
  attempts : nat;
  slept : Z
}.

(** The loop over [range(max_retries)], at attempt [i] with [remaining]
    iterations left; [time.sleep] refuses a negative delay. *)
Fixpoint wait_loop (connect : nat -> connection) (delay : Z)
         (i remaining : nat) (slept_ : Z) : run :=
  match remaining with
  | O => {| ended := CouldNotConnect; attempts := i; slept := slept_ |}
  | S rest =>
      match connect i with
      | Connected => {| ended := Returned; attempts := S i; slept := slept_ |}
      | OperationalError =>
          if delay <? 0
          then {| ended := SleepValueError; attempts := S i; slept := slept_ |}
          else wait_loop connect delay (S i) rest (slept_ + delay)
      end
  end.

Definition wait_for_db (connect : nat -> connection) (max_retries delay : Z) : run :=
  wait_loop connect delay 0 (Z.to_nat max_retries) 0.

End Load.

(** ** More concrete data *)

Module MoreExamples.
Import Transform.

(** The cube of the test with an id that no dimension defines. *)
Definition UNKNOWN_ID_RESPONSE : dataset tenths :=
  {| dimension := MOCK_DIMENSION;
     id := Some ["geo"; "time"; "freq"; "indic_codes"; "unit"]%string;
     size := [2; 2; 1; 2; 1];
     value := [ ("0", RawStr "100.5") ]%string |}.

(** The cube of the test with the same value at the flat indices 0 and
    8, which decode to the same cell. *)
Definition REPEATED_CELL_RESPONSE : dataset tenths :=
  {| dimension := MOCK_DIMENSION;
     id := Some ["geo"; "time"; "indic_codes"; "unit"]%string;
     size := [2; 2; 2; 1];
     value := [ ("0", RawStr "100.5"); ("8", RawStr "100.5") ]%string |}.

(** The cube of the test with a missing value under a key that is not a
    number, then a value under such a key. *)
Definition BAD_KEY_RESPONSE : dataset tenths :=
  {| dimension := MOCK_DIMENSION;
     id := Some ["geo"; "time"; "indic_codes"; "unit"]%string;
     size := [2; 2; 2; 1];
     value := [ ("a", RawStr ":"); ("b", RawStr "100.5");
                ("0", RawStr "150.2") ]%string |}.

Definition MOCK_LABELS : dict (dict string) :=
  [ ("geo", [("DE", "Germany"); ("FR", "France")]);
    ("time", [("2020", "2020"); ("2021", "2021")]);
    ("indic_codes", [("GEP", "Gross Production"); ("X", "Other")]);
    ("unit", [("GWH", "Gigawatt-hour")]) ]%string.

Definition MOCK_INDEXES : list (dict Z) :=
  [ [("DE", 0); ("FR", 1)]; [("2020", 0); ("2021", 1)];
    [("GEP", 0); ("X", 1)]; [("GWH", 0)] ]%string.

Import Forecast.

(** Five yearly observations, and a series of seven points. *)
Definition five_years : list (row integer_learners) :=
  yearly "DE" "GEP" 2000 [10; 12; 14; 16; 18].

Definition seven_points : series integer_learners :=
  [ (2000, 10); (2001, 12); (2002, 14); (2003, 16); (2004, 18);
    (2005, 20); (2006, 22) ].

(** Learners whose smoothing library refuses to fit. *)
Definition smoothing_fails : Learners := {|
  num := Z;
  zero := 0;
  flt := Z.ltb;
  group_mean := average;
  rolling_mean := average;
  rolling_std := fun _ => 0;
  np_mean := average;
  np_std := fun _ => 0;
  rmse := fun _ _ => Ok 0;
  xgb_model := unit;
  xgb_fit := fun _ _ => Ok tt;
  xgb_predict := fun _ f => f_roll_mean_3 f;
  es_model := unit;
  es_fit := fun _ => Raise LibraryError;
  es_forecast := fun _ _ => []
|}.

Definition five_rows : list (row smoothing_fails) :=
  map (fun y => @Build_row smoothing_fails "DE" "GEP"
                              {| dt_year := y; dt_month := 1; dt_day := 1 |} 10)
      [2000; 2001; 2002; 2003; 2004].

(** A database that accepts the fourth connection. *)
Definition ready_at_fourth (i : nat) : Load.connection :=
  if (i <? 3)%nat then Load.OperationalError else Load.Connected.

Definition never_ready (i : nat) : Load.connection := Load.OperationalError.

End MoreExamples.

Import MoreExamples.

(** * Properties *)

(** ** The index decoder *)

Section DecoderFacts.
Import Decoder.

Lemma unravel_loop_prefix (rsizes p c : list Z) (i : Z) :
  unravel_loop rsizes (p ++ c) i = (r <- unravel_loop rsizes c i ;; Ok (p ++ r)).
Proof.
  revert c i. induction rsizes as [|s rest IH]; intros c i; simpl.
  - reflexivity.
  - destruct (s =? 0); [reflexivity|].
    rewrite <- app_assoc. apply IH.
Qed.

Lemma unravel_index_snoc (sizes : list Z) (s i : Z) :
  s <> 0 ->
  unravel_index i (sizes ++ [s]) =
  (c <- unravel_index (i / s) sizes ;; Ok (c ++ [i mod s])).
Proof.
  intros Hs. unfold unravel_index.
  rewrite rev_app_distr. simpl.
  destruct (Z.eqb_spec s 0) as [|_]; [contradiction|].
  change [i mod s] with ([i mod s] ++ []).
  rewrite unravel_loop_prefix.
  destruct (unravel_loop (rev sizes) [] (i / s)) as [r|e]; simpl; [|reflexivity].
  reflexivity.
Qed.

Lemma product_snoc (sizes : list Z) (s : Z) :
  product (sizes ++ [s]) = product sizes * s.
Proof.
  unfold product. induction sizes as [|a l IH]; cbn [app fold_right]; [ring|].
  rewrite IH. ring.
Qed.

Lemma product_pos (sizes : list Z) : positive_sizes sizes -> 0 < product sizes.
Proof.
  unfold positive_sizes, product. induction 1; simpl; lia.
Qed.

Lemma positive_snoc (sizes : list Z) (s : Z) :
  positive_sizes (sizes ++ [s]) -> positive_sizes sizes /\ 0 < s.
Proof.
  unfold positive_sizes. intros H. apply Forall_app in H. destruct H as [H1 H2].
  split; [exact H1|]. now inversion H2.
Qed.

Lemma unravel_index_total (sizes : list Z) :
  positive_sizes sizes ->
  forall i, exists c, unravel_index i sizes = Ok c /\ in_range c sizes.
Proof.
  induction sizes as [|s sizes IH] using rev_ind; intros Hpos i.
  - exists []. split; [reflexivity|constructor].
  - apply positive_snoc in Hpos. destruct Hpos as [Hpos Hs].
    destruct (IH Hpos (i / s)) as (c & Hc & Hr).
    exists (c ++ [i mod s]). split.
    + rewrite unravel_index_snoc by lia. rewrite Hc. reflexivity.
    + apply Forall2_app; [exact Hr|].
      constructor; [|constructor]. apply Z.mod_pos_bound. exact Hs.
Qed.

Lemma unravel_index_wraps (sizes : list Z) :
  positive_sizes sizes ->
  forall i, unravel_index (i mod product sizes) sizes = unravel_index i sizes.
Proof.
  induction sizes as [|s sizes IH] using rev_ind; intros Hpos i.
  - reflexivity.
  - apply positive_snoc in Hpos. destruct Hpos as [Hpos Hs].
    pose proof (product_pos _ Hpos) as HP.
    rewrite !unravel_index_snoc by lia.
    rewrite product_snoc.
    replace (product sizes * s) with (s * product sizes) by lia.
    rewrite Z.rem_mul_r by lia.
    pose proof (Z.mod_pos_bound i s Hs) as Hr.
    set (r := i mod s) in *. set (q := (i / s) mod product sizes).
    replace ((r + s * q) / s) with q
      by (apply Z.div_unique_pos with r; [exact Hr|ring]).
    replace ((r + s * q) mod s) with r
      by (apply Z.mod_unique_pos with q; [exact Hr|ring]).
    subst q.
    rewrite IH by exact Hpos. reflexivity.
Qed.

Lemma sum_scale (f : nat -> Z) (s : Z) (l : list nat) :
  fold_right Z.add 0 (map (fun d => f d * s) l) = fold_right Z.add 0 (map f l) * s.
Proof. induction l as [|a l IH]; simpl; [lia|]. rewrite IH. ring. Qed.

Lemma ravel_index_snoc (c sizes : list Z) (x s : Z) :
  length c = length sizes ->
  ravel_index (c ++ [x]) (sizes ++ [s]) = ravel_index c sizes * s + x.
Proof.
  intros Hlen. unfold ravel_index.
  rewrite length_app, seq_app, map_app, fold_right_app.
  cbn [length seq map fold_right Nat.add].
  assert (Hlast : nth (length sizes) (c ++ [x]) 0 = x)
    by (rewrite <- Hlen; apply nth_middle).
  rewrite Hlast.
  rewrite skipn_all2 by (rewrite length_app; simpl; lia).
  assert (Hfold : forall (l : list Z) a,
             fold_right Z.add a l = fold_right Z.add 0 l + a).
  { induction l as [|b l IHl]; intros a; simpl; [lia|]. rewrite IHl. lia. }
  rewrite Hfold, <- sum_scale.
  replace (x * product [] + 0) with x by (unfold product; simpl; ring).
  f_equal. f_equal.
  apply map_ext_in. intros d Hd. apply in_seq in Hd.
  rewrite app_nth1 by lia.
  rewrite skipn_app.
  replace (S d - length sizes)%nat with 0%nat by lia.
  cbn [skipn]. rewrite product_snoc. ring.
Qed.

Lemma in_range_length (c sizes : list Z) : in_range c sizes -> length c = length sizes.
Proof. unfold in_range. induction 1; simpl; congruence. Qed.

(** C2. For positive sizes and a flat index [0 <= i < product sizes],
    the decoder returns a coordinate list, and re-encoding it with
    [sum(coord[d] * product(S[d+1:]))] gives [i] back. *)
Theorem unravel_index_roundtrip (sizes : list Z) (i : Z) :
  positive_sizes sizes -> 0 <= i < product sizes ->
  exists coord, unravel_index i sizes = Ok coord /\ ravel_index coord sizes = i.
Proof.
  revert i. induction sizes as [|s sizes IH] using rev_ind; intros i Hpos Hi.
  - exists []. split; [reflexivity|]. unfold product in Hi. simpl in Hi.
    unfold ravel_index. simpl. lia.
  - apply positive_snoc in Hpos. destruct Hpos as [Hpos Hs].
    rewrite product_snoc in Hi.
    assert (Hq : 0 <= i / s < product sizes).
    { split; [apply Z.div_pos; lia|]. apply Z.div_lt_upper_bound; lia. }
    destruct (IH (i / s) Hpos Hq) as (c & Hc & Hr).
    exists (c ++ [i mod s]). split.
    + rewrite unravel_index_snoc by lia. rewrite Hc. reflexivity.
    + destruct (unravel_index_total sizes Hpos (i / s)) as (c' & Hc' & Hrange).
      rewrite Hc in Hc'. injection Hc' as <-.
      rewrite ravel_index_snoc by (apply in_range_length; exact Hrange).
      rewrite Hr. pose proof (Z.div_mod i s). lia.
Qed.
End DecoderFacts.

Section DecoderClaims.
Import Decoder.

Lemma unravel_loop_length (rsizes c r : list Z) (i : Z) :
  unravel_loop rsizes c i = Ok r -> length r = (length c + length rsizes)%nat.
Proof.
  revert c i. induction rsizes as [|s rest IH]; intros c i; simpl.
  - intros [= <-]. lia.
  - destruct (s =? 0); [discriminate|]. intros H. apply IH in H.
    rewrite length_app in H. simpl in H. lia.
Qed.

Lemma unravel_index_length (sizes c : list Z) (i : Z) :
  unravel_index i sizes = Ok c -> length c = length sizes.
Proof.
  unfold unravel_index.
  destruct (unravel_loop (rev sizes) [] i) as [r|e] eqn:E; simpl; [|discriminate].
  intros [= <-]. apply unravel_loop_length in E.
  rewrite length_rev in *. simpl in E. exact E.
Qed.

Lemma unravel_index_nonzero (sizes : list Z) :
  Forall (fun s => s <> 0) sizes ->
  forall i, exists c, unravel_index i sizes = Ok c.
Proof.
  induction sizes as [|s sizes IH] using rev_ind; intros Hnz i.
  - exists []. reflexivity.
  - apply Forall_app in Hnz. destruct Hnz as [Hnz Hs]. inversion Hs; subst.
    destruct (IH Hnz (i / s)) as [c Hc].
    exists (c ++ [i mod s]). rewrite unravel_index_snoc by assumption.
    rewrite Hc. reflexivity.
Qed.

(** C9. On positive sizes the decoder never fails, whatever the
    non-negative flat index: the result has one coordinate per
    dimension, each within its dimension, and it is the result for
    [i mod product sizes], so what exceeds the product is dropped. *)
Theorem unravel_index_total_discards_excess (sizes : list Z) (i : Z) :
  positive_sizes sizes -> 0 <= i ->
  exists coords,
    unravel_index i sizes = Ok coords
    /\ length coords = length sizes
    /\ in_range coords sizes
    /\ unravel_index (i mod product sizes) sizes = Ok coords.
Proof.
  intros Hpos _.
  destruct (unravel_index_total sizes Hpos i) as (c & Hc & Hr).
  exists c. repeat split.
  - exact Hc.
  - apply in_range_length. exact Hr.
  - exact Hr.
  - rewrite unravel_index_wraps by exact Hpos. exact Hc.
Qed.

End DecoderClaims.

Lemma unravel_index_roundtrip_witness :
  exists coord,
    Decoder.unravel_index 7 [2; 2; 2; 1] = Ok coord
    /\ Decoder.ravel_index coord [2; 2; 2; 1] = 7.
Proof.
  apply (unravel_index_roundtrip [2; 2; 2; 1] 7).
  - repeat constructor.
  - vm_compute. split; [discriminate | reflexivity].
Defined.

Lemma unravel_index_total_discards_excess_witness :
  exists coords,
    Decoder.unravel_index 13 [2; 2; 2; 1] = Ok coords
    /\ length coords = length [2; 2; 2; 1]
    /\ Decoder.in_range coords [2; 2; 2; 1]
    /\ Decoder.unravel_index (13 mod Decoder.product [2; 2; 2; 1]) [2; 2; 2; 1]
       = Ok coords.
Proof.
  apply (unravel_index_total_discards_excess [2; 2; 2; 1] 13).
  - repeat constructor.
  - lia.
Defined.

(** ** Python primitives: results of indexing and of comprehensions *)

Section PyFacts.
Context {A B : Type}.

Lemma index_nat_ok (l : list A) (i : nat) (x : A) :
  index l (Z.of_nat i) = Ok x -> (i < length l)%nat.
Proof.
  unfold index. destruct (Z.of_nat i <? 0) eqn:E; [lia|].
  destruct ((Z.of_nat i <? 0) || (Z.of_nat (length l) <=? Z.of_nat i)) eqn:E2;
    [discriminate|].
  intros _. lia.
Qed.

Lemma index_nat_lt (l : list A) (i : nat) :
  (i < length l)%nat -> exists x, index l (Z.of_nat i) = Ok x.
Proof.
  intros Hi. unfold index. destruct (Z.of_nat i <? 0) eqn:E; [lia|].
  destruct ((Z.of_nat i <? 0) || (Z.of_nat (length l) <=? Z.of_nat i)) eqn:E2; [lia|].
  rewrite Nat2Z.id.
  destruct (nth_error l i) as [x|] eqn:En; [exists x; reflexivity|].
  apply nth_error_None in En. lia.
Qed.

Lemma index_raises (l : list A) (i : Z) (e : exn) :
  index l i = Raise e -> e = IndexError.
Proof.
  unfold index.
  destruct ((_ <? 0) || _); [congruence|].
  destruct (nth_error _ _); simpl; congruence.
Qed.

Lemma traverse_length (f : A -> result B) (l : list A) (r : list B) :
  traverse f l = Ok r -> length r = length l.
Proof.
  revert r. induction l as [|a l IH]; simpl; intros r.
  - intros [= <-]. reflexivity.
  - destruct (f a) as [b|e]; simpl; [|discriminate].
    destruct (traverse f l) as [bs|e]; simpl; [|discriminate].
    intros [= <-]. simpl. f_equal. apply IH. reflexivity.
Qed.

Lemma traverse_ok_in (f : A -> result B) (l : list A) (r : list B) :
  traverse f l = Ok r -> forall a, In a l -> exists b, f a = Ok b.
Proof.
  revert r. induction l as [|a0 l IH]; simpl; intros r H a Ha; [contradiction|].
  destruct (f a0) as [b|e] eqn:E; simpl in H; [|discriminate].
  destruct (traverse f l) as [bs|e]; simpl in H; [|discriminate].
  destruct Ha as [<-|Ha]; [exists b; exact E|].
  eapply IH; [reflexivity|exact Ha].
Qed.

Lemma traverse_raise_in (f : A -> result B) (l : list A) (e : exn) :
  traverse f l = Raise e -> exists a, In a l /\ f a = Raise e.
Proof.
  induction l as [|a0 l IH]; simpl; [discriminate|].
  destruct (f a0) as [b|e0] eqn:E; simpl.
  - destruct (traverse f l) as [bs|e1]; simpl; [discriminate|].
    intros [= <-]. destruct (IH eq_refl) as (a & Ha & Hf).
    exists a. split; [right; exact Ha|exact Hf].
  - intros [= <-]. exists a0. split; [left; reflexivity|exact E].
Qed.

End PyFacts.

(** ** The cube-to-records transformer *)

Section TransformFacts.
Context {B : Builtins}.
Import Decoder Transform.

Lemma entry_keys_ok (indexes : list (dict Z)) (idx : list Z) (ks : list string) :
  entry_keys indexes idx = Ok ks ->
  length ks = length idx /\ (length idx <= length indexes)%nat.
Proof.
  unfold entry_keys. intros H. split.
  - apply traverse_length in H. rewrite length_seq in H. exact H.
  - destruct (length idx) as [|n] eqn:En; [lia|].
    destruct (traverse_ok_in _ _ _ H n) as [k Hk]; [apply in_seq; lia|].
    destruct (index indexes (Z.of_nat n)) as [ix|e] eqn:E; [|discriminate].
    apply index_nat_ok in E. lia.
Qed.

Lemma entry_keys_raises (indexes : list (dict Z)) (idx : list Z) (e : exn) :
  entry_keys indexes idx = Raise e -> e = IndexError.
Proof.
  unfold entry_keys. intros H.
  apply traverse_raise_in in H. destruct H as (i & _ & H).
  destruct (index indexes (Z.of_nat i)) as [ix|e1] eqn:E1; simpl in H.
  - destruct (index idx (Z.of_nat i)) as [c|e2] eqn:E2; simpl in H.
    + eapply index_raises. exact H.
    + injection H as <-. eapply index_raises. exact E2.
  - injection H as <-. eapply index_raises. exact E1.
Qed.

Lemma entry_dim_map_ok (dim_ids ks : list string) (m : dict string) :
  entry_dim_map dim_ids ks = Ok m -> (length dim_ids <= length ks)%nat.
Proof.
  unfold entry_dim_map.
  destruct (traverse _ _) as [pairs|e] eqn:H; simpl; [|discriminate].
  intros _.
  destruct (length dim_ids) as [|n] eqn:En; [lia|].
  destruct (traverse_ok_in _ _ _ H n) as [k Hk]; [apply in_seq; lia|].
  destruct (index dim_ids (Z.of_nat n)) as [d|e] eqn:E; [|discriminate].
  simpl in Hk.
  destruct (index ks (Z.of_nat n)) as [k'|e] eqn:E'; [|discriminate].
  apply index_nat_ok in E'. lia.
Qed.

Lemma entry_dim_map_raises (dim_ids ks : list string) (e : exn) :
  entry_dim_map dim_ids ks = Raise e -> e = IndexError.
Proof.
  unfold entry_dim_map.
  destruct (traverse _ _) as [pairs|e0] eqn:H; simpl; [discriminate|].
  intros [= <-].
  apply traverse_raise_in in H. destruct H as (i & _ & H).
  destruct (index dim_ids (Z.of_nat i)) as [d|e1] eqn:E1; simpl in H.
  - destruct (index ks (Z.of_nat i)) as [k|e2] eqn:E2; simpl in H; [discriminate|].
    injection H as <-. eapply index_raises. exact E2.
  - injection H as <-. eapply index_raises. exact E1.
Qed.

Lemma build_indexes_length (dim : dict dim_info) (dim_ids : list string)
      (indexes : list (dict Z)) :
  build_indexes dim dim_ids = Ok indexes -> length indexes = length dim_ids.
Proof. apply traverse_length. Qed.

(** With as many index tables as dimension ids, an entry yields a
    record only if there are as many sizes too. *)
Lemma entry_record_lengths (ds : string) (sizes : list Z) (dim_ids : list string)
      (labels : dict (dict string)) (indexes : list (dict Z)) (ind : string)
      (targets : list string) (entry : string * raw B) (r : record B) :
  length indexes = length dim_ids ->
  entry_record ds sizes dim_ids labels indexes ind targets entry = Ok (Some r) ->
  length dim_ids = length sizes.
Proof.
  intros Hix. unfold entry_record. destruct entry as [k v].
  destruct (to_float v) as [x|]; [|discriminate].
  destruct (int_of_str k) as [n|]; simpl; [|discriminate].
  destruct (unravel_index n sizes) as [idx|e] eqn:Hidx; simpl; [|discriminate].
  destruct (entry_keys indexes idx) as [ks|e] eqn:Hks; simpl; [|discriminate].
  destruct (entry_dim_map dim_ids ks) as [m|e] eqn:Hm; simpl; [|discriminate].
  intros _.
  apply unravel_index_length in Hidx.
  apply entry_keys_ok in Hks. apply entry_dim_map_ok in Hm. lia.
Qed.

Lemma entry_record_index_error (ds : string) (sizes : list Z) (dim_ids : list string)
      (labels : dict (dict string)) (indexes : list (dict Z)) (ind : string)
      (targets : list string) (k : string) (v : raw B) (x : pyfloat) (n : Z) :
  length indexes = length dim_ids ->
  length dim_ids <> length sizes ->
  Forall (fun s => s <> 0) sizes ->
  to_float v = Some x -> int_of_str k = Some n ->
  entry_record ds sizes dim_ids labels indexes ind targets (k, v) = Raise IndexError.
Proof.
  intros Hix Hne Hnz Hx Hn. unfold entry_record. rewrite Hx, Hn. simpl.
  destruct (unravel_index_nonzero sizes Hnz n) as [idx Hidx].
  rewrite Hidx. simpl.
  apply unravel_index_length in Hidx.
  destruct (entry_keys indexes idx) as [ks|e] eqn:Hks; simpl.
  - destruct (entry_dim_map dim_ids ks) as [m|e] eqn:Hm; simpl.
    + apply entry_keys_ok in Hks. apply entry_dim_map_ok in Hm. lia.
    + apply entry_dim_map_raises in Hm. subst e. reflexivity.
  - apply entry_keys_raises in Hks. subst e. reflexivity.
Qed.

Lemma collect_no_record (f : string * raw B -> result (option (record B)))
      (entries : dict (raw B)) (rs : list (record B)) :
  (forall e r, f e <> Ok (Some r)) ->
  collect f entries = Ok rs -> rs = [].
Proof.
  intros Hf. revert rs. induction entries as [|e rest IH]; simpl; intros rs.
  - intros [= <-]. reflexivity.
  - destruct (f e) as [o|x] eqn:E; simpl; [|discriminate].
    destruct (collect f rest) as [rs'|x]; simpl; [|discriminate].
    destruct o as [r|]; [exfalso; eapply Hf; exact E|].
    intros [= <-]. apply IH. reflexivity.
Qed.

(** C4 (amended). A cube whose id list and size list differ in length is
    not checked up front.  The transformer then never returns a record:
    it returns the empty result or lets a Python exception escape.  It
    returns the empty result when no indicator dimension is detected;
    and an entry with a numeric value and an integer key, decoded over
    non-zero sizes, raises [IndexError]. *)
Theorem mismatched_cube_not_validated (now : Z) (ds : string) (data : dataset B)
        (targets : list string) (dim_ids : list string) :
  dim_ids = match id data with Some l => l | None => keys (dimension data) end ->
  length dim_ids <> length (size data) ->
  (transform_dataset now ds data targets = Ok []
   \/ exists e, transform_dataset now ds data targets = Raise e)
  /\ (forall labels indexes,
        build_labels (dimension data) = Ok labels ->
        build_indexes (dimension data) dim_ids = Ok indexes ->
        detect_indicator_dimension (dimension data) targets = None ->
        transform_dataset now ds data targets = Ok [])
  /\ (forall labels indexes ind k v x n,
        build_indexes (dimension data) dim_ids = Ok indexes ->
        Forall (fun s => s <> 0) (size data) ->
        to_float v = Some x -> int_of_str k = Some n ->
        entry_record ds (size data) dim_ids labels indexes ind targets (k, v)
        = Raise IndexError).
Proof.
  intros Hids Hne. split; [|split].
  - unfold transform_dataset. rewrite <- Hids.
    destruct (build_labels (dimension data)) as [labels|e]; simpl;
      [|right; eexists; reflexivity].
    destruct (build_indexes (dimension data) dim_ids) as [indexes|e] eqn:Hix; simpl;
      [|right; eexists; reflexivity].
    destruct (detect_indicator_dimension _ _) as [ind|]; [|left; reflexivity].
    destruct (String.eqb ind ""); [left; reflexivity|].
    destruct (collect _ _) as [rs|e] eqn:Hc; simpl; [|right; eexists; reflexivity].
    apply collect_no_record in Hc.
    + subst rs. left. reflexivity.
    + intros entry r Hr. apply entry_record_lengths in Hr; [contradiction|].
      exact (build_indexes_length _ _ _ Hix).
  - intros labels indexes Hl Hix Hd. unfold transform_dataset.
    rewrite <- Hids, Hl, Hix, Hd. reflexivity.
  - intros labels indexes ind k v x n Hix Hnz Hx Hn.
    eapply entry_record_index_error; eauto.
    exact (build_indexes_length _ _ _ Hix).
Qed.

(** C3 (amended). For positive sizes, a flat index at or beyond their
    product is not an error: the decoder returns the coordinates of
    [i mod product sizes], which is in range, and the transformer treats
    the entry exactly as it treats the entry of that index. *)
Theorem out_of_range_index_wraps (ds : string) (sizes : list Z)
        (dim_ids : list string) (labels : dict (dict string))
        (indexes : list (dict Z)) (ind : string) (targets : list string)
        (k k' : string) (v : raw B) (i : Z) :
  positive_sizes sizes -> product sizes <= i ->
  int_of_str k = Some i -> int_of_str k' = Some (i mod product sizes) ->
  0 <= i mod product sizes < product sizes
  /\ (exists coords, unravel_index i sizes = Ok coords /\ in_range coords sizes
                     /\ unravel_index (i mod product sizes) sizes = Ok coords)
  /\ entry_record ds sizes dim_ids labels indexes ind targets (k, v)
     = entry_record ds sizes dim_ids labels indexes ind targets (k', v).
Proof.
  intros Hpos _ Hk Hk'. split; [|split].
  - apply Z.mod_pos_bound. apply product_pos. exact Hpos.
  - destruct (unravel_index_total sizes Hpos i) as (c & Hc & Hr).
    exists c. rewrite unravel_index_wraps by exact Hpos. auto.
  - unfold entry_record. rewrite Hk, Hk'. simpl.
    rewrite unravel_index_wraps by exact Hpos. reflexivity.
Qed.

Lemma get_or_self_none (d : dict string) (k : option string) :
  get_or d k k = None <-> k = None.
Proof.
  unfold get_or. destruct k as [c|]; [|tauto].
  destruct (get d c); split; discriminate.
Qed.

(** The fields of an assembled record, in terms of the entry's
    dimension-code lookup. *)
Lemma entry_record_fields (ds : string) (sizes : list Z)
      (dim_ids : list string) (labels : dict (dict string))
      (indexes : list (dict Z)) (ind : string) (targets : list string)
      (entry : string * raw B) (r : record B) :
  entry_record ds sizes dim_ids labels indexes ind targets entry = Ok (Some r) ->
  exists dim_map c,
    country_code r = get dim_map "geo"
    /\ country_name r = get_or (labels_of labels "geo")
                               (get dim_map "geo") (get dim_map "geo")
    /\ indicator_code r = Some c.
Proof.
  unfold entry_record. destruct entry as [k v].
  destruct (to_float v) as [x|]; [|discriminate].
  destruct (int_of_str k) as [n|]; simpl; [|discriminate].
  destruct (unravel_index n sizes) as [idx|e]; simpl; [|discriminate].
  destruct (entry_keys indexes idx) as [ks|e]; simpl; [|discriminate].
  destruct (entry_dim_map dim_ids ks) as [m|e]; simpl; [|discriminate].
  destruct (get m ind) as [c|] eqn:Hind; [|discriminate].
  destruct (negb _); [discriminate|].
  intros [= <-]. exists m, c. repeat split.
Qed.

(** C10. In an assembled record the entity name is the geo label of the
    entity code, or the code itself when the geo dimension has no label
    for it; so the name is null exactly when the code is null, and
    [dropna] keeps the record whenever its code, indicator label, time
    and value are present. *)
Theorem country_name_falls_back_to_code (ds : string) (sizes : list Z)
        (dim_ids : list string) (labels : dict (dict string))
        (indexes : list (dict Z)) (ind : string) (targets : list string)
        (entry : string * raw B) (r : record B) :
  entry_record ds sizes dim_ids labels indexes ind targets entry = Ok (Some r) ->
  (forall code, country_code r = Some code ->
                get (labels_of labels "geo") code = None ->
                country_name r = Some code)
  /\ (country_name r = None <-> country_code r = None)
  /\ (forall df, In r df ->
        (In r (dropna df) <->
         country_code r <> None /\ indicator_label r <> None
         /\ time r <> None /\ float_isnull (val r) = false)).
Proof.
  intros H. apply entry_record_fields in H.
  destruct H as (m & c & Hcc & Hcn & Hic).
  assert (Hnull : country_name r = None <-> country_code r = None).
  { rewrite Hcn, Hcc. apply get_or_self_none. }
  split; [|split].
  - intros code Hc Hl. rewrite Hcn, <- Hcc, Hc. unfold get_or.
    rewrite Hl. reflexivity.
  - exact Hnull.
  - intros df Hin. unfold dropna. rewrite filter_In.
    unfold null_cells. rewrite Hic. clear Hcc Hcn Hic.
    destruct (country_code r), (country_name r), (indicator_label r),
      (time r), (float_isnull (val r)); cbn;
      intuition (try congruence; try discriminate).
Qed.

End TransformFacts.

Lemma mismatched_cube_not_validated_witness :
  Transform.transform_dataset 0 "test_ds" SHORT_SIZE_RESPONSE ["GEP"%string]
  = Ok []
  \/ exists e,
      Transform.transform_dataset 0 "test_ds" SHORT_SIZE_RESPONSE
                                  ["GEP"%string] = Raise e.
Proof.
  apply (mismatched_cube_not_validated
           0 "test_ds" SHORT_SIZE_RESPONSE ["GEP"%string]
           ["geo"; "time"; "indic_codes"; "unit"]%string).
  - reflexivity.
  - simpl. lia.
Defined.

(** C4, refuted as stated: the cube of the test with its last size
    removed has four dimension ids and three sizes.  With an indicator
    that no dimension carries, the transformer returns the empty result;
    with the indicator of the test it lets an [IndexError] escape. *)
Lemma short_size_cube_soft_fails :
  length ["geo"; "time"; "indic_codes"; "unit"]%string
  <> length (Transform.size SHORT_SIZE_RESPONSE)
  /\ Transform.transform_dataset 0 "test_ds" SHORT_SIZE_RESPONSE
                                 ["NON_EXISTENT"%string] = Ok []
  /\ Transform.transform_dataset 0 "test_ds" SHORT_SIZE_RESPONSE
                                 ["GEP"%string] = Raise IndexError.
Proof. split; [simpl; lia | split; vm_compute; reflexivity]. Qed.

Lemma out_of_range_index_wraps_witness :
  0 <= 8 mod Decoder.product [2; 2; 2; 1] < Decoder.product [2; 2; 2; 1]
  /\ (exists coords,
        Decoder.unravel_index 8 [2; 2; 2; 1] = Ok coords
        /\ Decoder.in_range coords [2; 2; 2; 1]
        /\ Decoder.unravel_index (8 mod Decoder.product [2; 2; 2; 1]) [2; 2; 2; 1]
           = Ok coords)
  /\ Transform.entry_record
       "test_ds" [2; 2; 2; 1] ["geo"; "time"; "indic_codes"; "unit"]%string
       [] [] "indic_codes" ["GEP"%string] ("8"%string, Transform.RawStr "300.1")
     = Transform.entry_record
         "test_ds" [2; 2; 2; 1] ["geo"; "time"; "indic_codes"; "unit"]%string
         [] [] "indic_codes" ["GEP"%string] ("0"%string, Transform.RawStr "300.1").
Proof.
  apply (@out_of_range_index_wraps tenths).
  - repeat constructor.
  - vm_compute. discriminate.
  - reflexivity.
  - reflexivity.
Defined.

(** C3, refuted as stated: in the cube of the test the sizes multiply to
    8 and the sparse map has the key 8.  The decoder returns the
    coordinates of index 0, and the transformer returns three rows, the
    third built from that entry. *)
Lemma flat_index_8_is_decoded :
  Decoder.product [2; 2; 2; 1] <= 8
  /\ Decoder.unravel_index 8 [2; 2; 2; 1] = Ok [0; 0; 0; 0]
  /\ exists rows,
      Transform.transform_dataset 0 "test_ds" MOCK_DATASET_RESPONSE
                                  ["GEP"%string] = Ok rows
      /\ map (fun o => (Transform.country_code (Transform.obs_fields o),
                        Transform.time (Transform.obs_fields o),
                        Transform.val (Transform.obs_fields o))) rows
         = [ (Some "DE", Some "2020", 1005); (Some "FR", Some "2020", 1502);
             (Some "DE", Some "2020", 3001) ]%string.
Proof.
  split; [vm_compute; discriminate|]. split; [reflexivity|].
  eexists. split; vm_compute; reflexivity.
Qed.

Lemma country_name_falls_back_to_code_witness :
  Transform.country_name FR_RECORD = Some "FR"%string
  /\ (Transform.country_name FR_RECORD = None
      <-> Transform.country_code FR_RECORD = None).
Proof.
  pose proof (@country_name_falls_back_to_code
                tenths "test_ds" [2; 1; 1]
                ["geo"; "time"; "indic_codes"]%string
                UNLABELLED_GEO_LABELS UNLABELLED_GEO_INDEXES
                "indic_codes" ["GEP"%string]
                ("1"%string, Transform.RawNum 1502) FR_RECORD
                eq_refl) as [Hname [Hnull _]].
  split; [apply Hname; reflexivity | exact Hnull].
Defined.

(** ** Sorted year lists *)

Section SortedFacts.

Lemma strongly_sorted_app (R : Z -> Z -> Prop) (l1 l2 : list Z) :
  StronglySorted R l1 -> StronglySorted R l2 ->
  (forall x y, In x l1 -> In y l2 -> R x y) ->
  StronglySorted R (l1 ++ l2).
Proof.
  intros H1 H2 Hx. induction H1 as [|a l H1 IH Ha]; simpl; [exact H2|].
  constructor.
  - apply IH. intros x y Hin. apply Hx. right. exact Hin.
  - apply Forall_app. split; [exact Ha|].
    apply Forall_forall. intros y Hy. apply Hx; [left; reflexivity|exact Hy].
Qed.

Lemma strongly_sorted_lt_le (l : list Z) :
  StronglySorted Z.lt l -> StronglySorted Z.le l.
Proof.
  induction 1 as [|a l _ IH Ha]; constructor; [exact IH|].
  eapply Forall_impl; [|exact Ha]. intros; lia.
Qed.

Lemma strongly_sorted_skipn (R : Z -> Z -> Prop) (n : nat) (l : list Z) :
  StronglySorted R l -> StronglySorted R (skipn n l).
Proof.
  revert l. induction n as [|n IH]; intros l H; [exact H|].
  destruct l as [|a l]; [exact H|]. simpl. apply IH.
  apply StronglySorted_inv in H. tauto.
Qed.

Lemma strongly_sorted_last (l : list Z) :
  StronglySorted Z.lt l -> forall x, In x l -> x <= last l 0.
Proof.
  induction 1 as [|a l Hl IH Ha]; intros x Hin; [contradiction|].
  destruct l as [|b l'].
  - destruct Hin as [<-|[]]. simpl. lia.
  - change (last (a :: b :: l') 0) with (last (b :: l') 0).
    destruct Hin as [<-|Hin]; [|apply IH; exact Hin].
    assert (Hb : b <= last (b :: l') 0) by (apply IH; left; reflexivity).
    inversion Ha; subst. lia.
Qed.

Lemma last_skipn {A} (n : nat) (l : list A) (d : A) :
  skipn n l <> [] -> last (skipn n l) d = last l d.
Proof.
  revert l. induction n as [|n IH]; intros l H; [reflexivity|].
  destruct l as [|a l]; [contradiction|]. simpl in H |- *.
  rewrite IH by exact H.
  destruct l; [destruct n; contradiction | reflexivity].
Qed.

Lemma last_of_rev_head {A} (l : list A) (v d : A) :
  nth_error (rev l) 0 = Some v -> last l d = v.
Proof.
  intros H. rewrite <- (rev_involutive l).
  destruct (rev l) as [|a t]; [discriminate|].
  injection H as ->. simpl. apply last_last.
Qed.

Lemma sort_by_sorted {A} (key : A -> Z) (l : list A) :
  StronglySorted Z.le (map key l) -> Forecast.sort_by key l = l.
Proof.
  induction l as [|a l IH]; intros H; [reflexivity|].
  simpl in H. apply StronglySorted_inv in H. destruct H as [Hl Ha].
  unfold Forecast.sort_by in *. simpl. rewrite IH by exact Hl.
  destruct l as [|b l']; [reflexivity|].
  simpl. inversion Ha; subst.
  replace (key a <=? key b) with true by (symmetry; apply Z.leb_le; assumption).
  reflexivity.
Qed.

Lemma years_after_sorted (last_year horizon : Z) :
  StronglySorted Z.le (Forecast.years_after last_year horizon)
  /\ Forall (fun y => last_year < y) (Forecast.years_after last_year horizon).
Proof.
  unfold Forecast.years_after, Forecast.py_range.
  generalize (Z.to_nat (horizon + 1 - 1)) as n. intros n.
  rewrite map_map.
  assert (H : forall a,
             StronglySorted Z.le
               (map (fun k => last_year + (1 + Z.of_nat k)) (seq a n))).
  { induction n as [|n IH]; intros a; cbn [seq map]; constructor; [apply IH|].
    apply Forall_forall. intros y Hy. apply in_map_iff in Hy.
    destruct Hy as (k & <- & Hk). apply in_seq in Hk. cbv beta. lia. }
  split; [apply H|].
  apply Forall_forall. intros y Hy. apply in_map_iff in Hy.
  destruct Hy as (k & <- & _). cbv beta. lia.
Qed.

End SortedFacts.

(** ** The series and the supervised table *)

Section SeriesFacts.
Context {L : Learners}.
Import Forecast.

Lemma group_insert_keys (y k : Z) (v : num) (groups : list (Z * list num)) :
  In k (map fst (group_insert y v groups)) -> k = y \/ In k (map fst groups).
Proof.
  induction groups as [|[y' vs] rest IH]; simpl.
  - intros [<-|[]]. left. reflexivity.
  - destruct (y <? y'); [simpl; intuition|].
    destruct (y =? y'); simpl; intuition.
Qed.

Lemma group_insert_sorted (y : Z) (v : num) (groups : list (Z * list num)) :
  StronglySorted Z.lt (map fst groups) ->
  StronglySorted Z.lt (map fst (group_insert y v groups)).
Proof.
  induction groups as [|[y' vs] rest IH]; simpl; intros H.
  - repeat constructor.
  - apply StronglySorted_inv in H. destruct H as [Hrest Hy'].
    destruct (Z.ltb_spec y y') as [Hlt|Hge].
    + simpl. constructor; [constructor; assumption|].
      constructor; [exact Hlt|].
      eapply Forall_impl; [|exact Hy']. intros; lia.
    + destruct (Z.eqb_spec y y') as [Heq|Hne]; simpl.
      * constructor; assumption.
      * constructor; [apply IH; exact Hrest|].
        apply Forall_forall. intros k Hk.
        apply group_insert_keys in Hk. destruct Hk as [->|Hk]; [lia|].
        rewrite Forall_forall in Hy'. apply Hy'. exact Hk.
Qed.

Lemma groupby_year_sorted (df : list (Z * num)) :
  StronglySorted Z.lt (map fst (groupby_year df)).
Proof.
  unfold groupby_year.
  assert (H : forall groups, StronglySorted Z.lt (map fst groups) ->
                StronglySorted Z.lt
                  (map fst (fold_left
                              (fun groups p => group_insert (fst p) (snd p) groups)
                              df groups))).
  { induction df as [|p df IH]; intros groups Hg; simpl; [exact Hg|].
    apply IH. apply group_insert_sorted. exact Hg. }
  apply H. constructor.
Qed.

(** The years of a derived series increase strictly. *)
Lemma get_series_sorted (data : list (row L)) (country ind : string) :
  StronglySorted Z.lt (map fst (_get_series data country ind)).
Proof.
  unfold _get_series.
  destruct (is_empty _); [constructor|].
  match goal with |- context [groupby_year ?d] => set (df := d) end.
  pose proof (groupby_year_sorted df) as Hs.
  assert (Hk : map fst (map (fun g : Z * list num => (fst g, group_mean (snd g)))
                            (groupby_year df))
               = map fst (groupby_year df))
    by (rewrite map_map; reflexivity).
  rewrite sort_by_sorted; rewrite Hk; [exact Hs|].
  apply strongly_sorted_lt_le. exact Hs.
Qed.

Lemma complete_rows_from (values : list num) (k : nat) (t : series L) :
  (3 <= k)%nat -> (k + length t <= length values)%nat ->
  map (fun r => (year r, val r))
      (filter_some complete_row
                   (map (make_row values 3) (combine (seq k (length t)) t)))
  = t.
Proof.
  revert k. induction t as [|p t IH]; intros k Hk Hlen; [reflexivity|].
  simpl in Hlen. cbn [length seq combine map filter_some].
  unfold complete_row at 1. unfold make_row at 1 2 3.
  cbn [r_lags r_roll_mean_3 r_roll_std_3 r_year r_value fst snd seq map].
  unfold shift, window_3.
  replace (k <? 1)%nat with false by (symmetry; apply Nat.ltb_ge; lia).
  replace (k <? 2)%nat with false by (symmetry; apply Nat.ltb_ge; lia).
  replace (k <? 3)%nat with false by (symmetry; apply Nat.ltb_ge; lia).
  destruct (nth_error values (k - 1)) as [a|] eqn:E1;
    [|apply nth_error_None in E1; lia].
  destruct (nth_error values (k - 2)) as [b|] eqn:E2;
    [|apply nth_error_None in E2; lia].
  destruct (nth_error values (k - 3)) as [c|] eqn:E3;
    [|apply nth_error_None in E3; lia].
  cbn [all_some option_map map year val]. destruct p as [y v]. cbn [fst snd].
  f_equal. apply IH; lia.
Qed.

(** The supervised table keeps the series from its fourth point on. *)
Lemma supervised_pairs (s : series L) :
  map (fun r => (year r, val r)) (dropna (frame s 3)) = skipn 3 s.
Proof.
  unfold dropna, frame.
  destruct s as [|p0 [|p1 [|p2 t]]]; try reflexivity.
  cbn [length seq combine map filter_some].
  unfold complete_row at 1 2 3. unfold make_row at 1 2 3 4 5 6 7 8 9.
  cbn [r_lags r_roll_mean_3 r_roll_std_3 fst snd seq map shift window_3
       Nat.ltb Nat.leb all_some option_map skipn].
  apply complete_rows_from; [lia|]. simpl. rewrite length_map. lia.
Qed.

End SeriesFacts.

(** ** The forecast selector *)

Section SelectorFacts.
Context {L : Learners}.
Import Forecast.

(** C5. When the derived series has fewer than five points, the empty
    one included, [run_forecast] returns the empty sequence with the
    name "No forecast (insufficient data)"; no learner is called, so
    nothing can raise. *)
Theorem run_forecast_insufficient (data : list (row L)) (country ind : string)
        (horizon : Z) :
  (length (_get_series data country ind) < 5)%nat ->
  run_forecast data country ind horizon
  = Ok ([], "No forecast (insufficient data)"%string).
Proof.
  intros Hlen. unfold run_forecast.
  replace (len (_get_series data country ind) <? 5) with true
    by (symmetry; apply Z.ltb_lt; unfold len; lia).
  rewrite orb_true_r. reflexivity.
Qed.

Lemma sort_candidates_two (a b : candidate L) :
  sort_candidates [a; b] = if flt (cand_rmse b) (cand_rmse a) then [b; a] else [a; b].
Proof. reflexivity. Qed.

(** C6. On a series of at least five points the selector runs both
    forecasters with [test_size = min(5, max(2, len // 3))]; when both
    return, its result is the selection the specification describes:
    candidates without data are discarded, the smoothing forecaster wins
    only with a strictly lower RMSE, and the empty result is returned
    when no candidate is left.  In particular the tree-based forecaster
    wins when the two RMSE are the same float. *)
Theorem run_forecast_selects (data : list (row L)) (country ind : string)
        (horizon : Z) (x es : outcome L) :
  let s := _get_series data country ind in
  let test_size := Z.min 5 (Z.max 2 (len s / 3)) in
  (5 <= length s)%nat ->
  _train_xgb s horizon test_size = Ok x ->
  _train_es s horizon test_size = Ok es ->
  run_forecast data country ind horizon = Ok (select_lower_rmse x es)
  /\ (forall hx fx he fe r nx ne,
        x = (Some hx, Some fx, Some r, nx) ->
        es = (Some he, Some fe, Some r, ne) ->
        flt r r = false ->
        run_forecast data country ind horizon = Ok (present "XGBoost" hx fx)).
Proof.
  intros s test_size Hlen Hx Hes.
  assert (Hrun : run_forecast data country ind horizon
                 = Ok (select_lower_rmse x es)).
  { unfold run_forecast. fold s.
    replace (is_empty s || (len s <? 5)) with false.
    2:{ symmetry. apply orb_false_iff. split.
        - destruct s; [simpl in Hlen; lia | reflexivity].
        - apply Z.ltb_ge. unfold len. lia. }
    fold test_size. rewrite Hx, Hes. cbn [bind].
    unfold select_lower_rmse, present.
    destruct x as [[[[hx|] [fx|]] [rx|]] nx];
      destruct es as [[[[he|] [fe|]] [re|]] ne];
      cbn [candidate_of sufficient app]; try reflexivity.
    rewrite sort_candidates_two. unfold cand_rmse. cbn [fst snd].
    destruct (flt re rx); reflexivity. }
  split; [exact Hrun|].
  intros hx fx he fe r nx ne -> -> Htie. rewrite Hrun.
  unfold select_lower_rmse. cbn [sufficient]. rewrite Htie. reflexivity.
Qed.

End SelectorFacts.

(** ** The recursive forecast of the tree-based forecaster *)

Section RecursionFacts.
Context {L : Learners}.
Import Forecast.

Lemma index_from_end {A} (l : list A) (k : nat) :
  (1 <= k <= length l)%nat ->
  exists v, index l (- Z.of_nat k) = Ok v /\ nth_error (rev l) (k - 1) = Some v.
Proof.
  intros Hk. unfold index.
  replace (- Z.of_nat k <? 0) with true by (symmetry; apply Z.ltb_lt; lia).
  replace ((Z.of_nat (length l) + - Z.of_nat k <? 0)
           || (Z.of_nat (length l) <=? Z.of_nat (length l) + - Z.of_nat k))
    with false
    by (symmetry; apply orb_false_iff; split;
        [apply Z.ltb_ge | apply Z.leb_gt]; lia).
  replace (Z.to_nat (Z.of_nat (length l) + - Z.of_nat k))
    with (length l - k)%nat by lia.
  rewrite nth_error_rev.
  replace (k - 1 <? length l)%nat with true by (symmetry; apply Nat.ltb_lt; lia).
  replace (length l - S (k - 1))%nat with (length l - k)%nat by lia.
  destruct (nth_error l (length l - k)) as [v|] eqn:E.
  - exists v. split; reflexivity.
  - apply nth_error_None in E. lia.
Qed.

Lemma future_lag (history : list num) (k : nat) :
  history <> [] -> (1 <= k)%nat ->
  exists v,
    (if Z.of_nat k <=? len history
     then index history (- Z.of_nat k) else index history (-1)) = Ok v
    /\ lag_padded_with_latest history k = Some v.
Proof.
  intros Hne Hk. unfold lag_padded_with_latest, len.
  assert (Hlen : (1 <= length history)%nat)
    by (destruct history; [contradiction | simpl; lia]).
  destruct (Z.leb_spec (Z.of_nat k) (Z.of_nat (length history))) as [Hle|Hgt].
  - destruct (index_from_end history k) as (v & Hv & Hn); [lia|].
    exists v. rewrite Hn. split; [exact Hv | reflexivity].
  - destruct (index_from_end history 1) as (v & Hv & Hn); [lia|].
    exists v. split; [exact Hv|].
    replace (nth_error (rev history) (k - 1)) with (@None num)
      by (symmetry; apply nth_error_None; rewrite length_rev; lia).
    rewrite <- nth_error_0. exact Hn.
Qed.

Lemma trailing_window (history : list num) :
  (if 3 <=? len history then slice_from history (-3) else history)
  = trailing_3 history.
Proof.
  unfold trailing_3, len, slice_from, clamp.
  destruct (Z.leb_spec 3 (Z.of_nat (length history))) as [Hle|Hgt].
  - cbn [Z.ltb Z.compare]. f_equal. lia.
  - replace (length history - 3)%nat with 0%nat by lia. reflexivity.
Qed.

Lemma trailing_3_length (history : list num) :
  length (trailing_3 history) = Nat.min 3 (length history).
Proof. unfold trailing_3. rewrite length_skipn. lia. Qed.

Lemma future_feats_returns (year_ : Z) (history : list num) :
  history <> [] ->
  exists feats,
    future_feats year_ history = Ok feats
    /\ f_year feats = year_
    /\ map Some (f_lags feats)
       = map (lag_padded_with_latest history) [1; 2; 3]%nat
    /\ f_roll_mean_3 feats = np_mean (trailing_3 history)
    /\ f_roll_std_3 feats
       = (if (length history <=? 1)%nat then zero
          else np_std (trailing_3 history)).
Proof.
  intros Hne. unfold future_feats.
  change (py_range 1 4) with [Z.of_nat 1; Z.of_nat 2; Z.of_nat 3].
  cbn [traverse].
  destruct (future_lag history 1 Hne) as (v1 & E1 & H1); [lia|].
  destruct (future_lag history 2 Hne) as (v2 & E2 & H2); [lia|].
  destruct (future_lag history 3 Hne) as (v3 & E3 & H3); [lia|].
  rewrite E1, E2, E3. cbn [bind].
  rewrite trailing_window.
  eexists. split; [reflexivity|]. cbn [f_year f_lags f_roll_mean_3 f_roll_std_3].
  split; [reflexivity|]. split; [|split; [reflexivity|]].
  - cbn [map]. rewrite H1, H2, H3. reflexivity.
  - unfold len. rewrite trailing_3_length.
    destruct (Nat.leb_spec (length history) 1) as [Hle|Hgt].
    + replace (1 <? Z.of_nat (Nat.min 3 (length history))) with false
        by (symmetry; apply Z.ltb_ge; lia).
      reflexivity.
    + replace (1 <? Z.of_nat (Nat.min 3 (length history))) with true
        by (symmetry; apply Z.ltb_lt; lia).
      reflexivity.
Qed.

(** C8 (amended). At each future step, on a non-empty working history:
    lag1..lag3 are the most recent one to three values, a missing one
    being replaced by the latest value; the rolling mean and deviation
    are taken over the trailing values, three at most, the deviation
    being [0.0] when there is a single value; and the prediction is
    appended to the history, so that it is lag1 of the next step. *)
Theorem recursive_forecast_step (model : xgb_model) (last_year step : Z)
        (rest : list Z) (history : list num) (rows : list (Z * num)) :
  history <> [] ->
  exists feats,
    future_feats (last_year + step) history = Ok feats
    /\ map Some (f_lags feats)
       = map (lag_padded_with_latest history) [1; 2; 3]%nat
    /\ f_roll_mean_3 feats = np_mean (trailing_3 history)
    /\ f_roll_std_3 feats
       = (if (length history <=? 1)%nat then zero
          else np_std (trailing_3 history))
    /\ forecast_loop model last_year (step :: rest) history rows
       = forecast_loop model last_year rest
                       (history ++ [xgb_predict model feats])
                       (rows ++ [(last_year + step, xgb_predict model feats)])
    /\ forall year_,
        exists next,
          future_feats year_ (history ++ [xgb_predict model feats]) = Ok next
          /\ nth_error (f_lags next) 0 = Some (xgb_predict model feats).
Proof.
  intros Hne.
  destruct (future_feats_returns (last_year + step) history Hne)
    as (feats & Hf & _ & Hlags & Hmean & Hstd).
  exists feats. repeat split; try assumption.
  - cbn [forecast_loop]. rewrite Hf. reflexivity.
  - intros year_.
    assert (Hne' : history ++ [xgb_predict model feats] <> [])
      by (destruct history; discriminate).
    destruct (future_feats_returns year_ _ Hne')
      as (next & Hn & _ & Hl & _).
    exists next. split; [exact Hn|].
    destruct (f_lags next) as [|l1 ls]; [discriminate|].
    cbn [map] in Hl. injection Hl as Hl _.
    unfold lag_padded_with_latest in Hl. rewrite rev_unit in Hl.
    cbn in Hl. cbn. exact Hl.
Qed.

(** C7. For a series of ten points the supervised table has seven rows
    (and so have [X] and [y]); row [j] of the table comes from position
    [j + 3] of the series, and its lag1 is the raw value at position
    [j + 2], the one just before. *)
Theorem make_supervised_ten_points (s : series L) :
  length s = 10%nat ->
  let df := fst (fst (fst (_make_supervised s 3))) in
  let X := snd (fst (fst (_make_supervised s 3))) in
  let y := snd (fst (_make_supervised s 3)) in
  length df = 7%nat
  /\ X = map features_of df /\ y = map val df
  /\ forall j r, nth_error df j = Some r ->
       nth_error s (j + 3) = Some (year r, val r)
       /\ nth_error (lags r) 0 = nth_error (map snd s) (j + 2).
Proof.
  intros Hlen.
  do 10 (destruct s as [|[? ?] s]; [discriminate|]).
  destruct s; [|discriminate]. clear Hlen.
  cbv [_make_supervised frame dropna]. cbn.
  split; [reflexivity|]. split; [reflexivity|]. split; [reflexivity|].
  intros j r Hj.
  do 7 (destruct j as [|j]; [injection Hj as <-; split; reflexivity|]).
  destruct j; discriminate.
Qed.

End RecursionFacts.

(** ** The segments of a forecast *)

Section SegmentFacts.
Context {L : Learners}.
Import Forecast.

Lemma forecast_loop_years (model : xgb_model) (last_year : Z) (steps : list Z)
      (history : list num) (rows : list (Z * num)) (final : list num * list (Z * num)) :
  forecast_loop model last_year steps history rows = Ok final ->
  map fst (snd final) = map fst rows ++ map (fun k => last_year + k) steps.
Proof.
  revert history rows. induction steps as [|step rest IH]; intros history rows.
  - simpl. intros [= <-]. simpl. rewrite app_nil_r. reflexivity.
  - cbn [forecast_loop].
    destruct (future_feats (last_year + step) history) as [feats|e];
      cbn [bind]; [|discriminate].
    intros H. apply IH in H. rewrite H, map_app, <- app_assoc. reflexivity.
Qed.

(** What the tree-based forecaster returns when it has enough data: the
    series from its fourth point on, and the years after the last one. *)
Lemma train_xgb_segments (s : series L) (horizon test_size : Z)
      (hist future : list (Z * num)) (r : option num) (name : string) :
  _train_xgb s horizon test_size = Ok (Some hist, Some future, r, name) ->
  hist = skipn 3 s /\ hist <> []
  /\ map fst future = years_after (last (map fst s) 0) horizon.
Proof.
  unfold _train_xgb, _make_supervised.
  pose proof (supervised_pairs s) as Hp.
  destruct (dropna (frame s 3)) as [|r0 df] eqn:Hdf; [discriminate|].
  cbn [is_empty orb].
  destruct (len (r0 :: df) <=? test_size + 1); [discriminate|].
  destruct (xgb_fit _ _) as [model|e]; cbn [bind]; [|discriminate].
  destruct (rmse _ _) as [rm|e]; cbn [bind]; [|discriminate].
  destruct (index (map year (r0 :: df)) (-1)) as [ly|e] eqn:Hly;
    cbn [bind]; [|discriminate].
  destruct (forecast_loop _ _ _ _ _) as [final|e] eqn:Hloop;
    cbn [bind]; [|discriminate].
  intros [= <- <- _ _].
  assert (Hlast : ly = last (map fst s) 0).
  { destruct (index_from_end (map year (r0 :: df)) 1) as (v & Hv & Hn);
      [simpl; lia|].
    change (- Z.of_nat 1) with (-1) in Hv. rewrite Hly in Hv. injection Hv as <-.
    apply last_of_rev_head with (d := 0) in Hn.
    replace (map year (r0 :: df))
      with (map fst (map (fun r => (year r, val r)) (r0 :: df))) in Hn
      by (rewrite map_map; reflexivity).
    rewrite Hp in Hn. rewrite <- Hn, <- skipn_map.
    apply last_skipn. rewrite skipn_map, <- Hp. discriminate. }
  split; [exact Hp|]. split; [discriminate|].
  apply forecast_loop_years in Hloop. rewrite Hloop, Hlast. reflexivity.
Qed.

Lemma segment_years_tagged (hist future : list (Z * num)) :
  segment_years historical (tag historical hist ++ tag forecast future)
  = map fst hist
  /\ segment_years forecast (tag historical hist ++ tag forecast future)
     = map fst future.
Proof.
  unfold segment_years, tag. rewrite !filter_app, !map_app.
  assert (Hsame : forall t (l : list (Z * num)),
             map tagged_year
                 (filter (has_tag t) (map (fun p => (fst p, snd p, t)) l))
             = map fst l).
  { intros t l. induction l as [|p l IH]; [reflexivity|].
    simpl. destruct t; simpl; rewrite IH; reflexivity. }
  assert (Hhf : forall l : list (Z * num),
             filter (has_tag historical)
                    (map (fun p => (fst p, snd p, forecast)) l) = []).
  { induction l as [|p l IH]; [reflexivity|]. simpl. exact IH. }
  assert (Hfh : forall l : list (Z * num),
             filter (has_tag forecast)
                    (map (fun p => (fst p, snd p, historical)) l) = []).
  { induction l as [|p l IH]; [reflexivity|]. simpl. exact IH. }
  rewrite !Hsame, Hhf, Hfh. simpl. rewrite app_nil_r. split; reflexivity.
Qed.

Lemma tagged_years (hist future : list (Z * num)) :
  map tagged_year (tag historical hist ++ tag forecast future)
  = map fst hist ++ map fst future.
Proof. unfold tag. rewrite map_app, !map_map. reflexivity. Qed.

(** C1, on the tree-based path. When [run_forecast] returns the
    tree-based forecaster's result, the forecast segment is the
    [horizon] years after the last year of the series, but the
    historical segment is the series without its first three years. *)
Theorem xgboost_history_drops_three_years (data : list (row L))
        (country ind : string) (horizon : Z) (df : list (tagged L)) :
  run_forecast data country ind horizon = Ok (df, "XGBoost"%string) ->
  let s := _get_series data country ind in
  segment_years historical df = skipn 3 (map fst s)
  /\ segment_years historical df <> map fst s
  /\ segment_years forecast df = years_after (last (map fst s) 0) horizon.
Proof.
  intros Hrun s. unfold run_forecast in Hrun. fold s in Hrun.
  destruct (is_empty s || (len s <? 5)); [discriminate|].
  destruct (_train_xgb s horizon _) as [x|e] eqn:Hx; cbn [bind] in Hrun;
    [|discriminate].
  destruct (_train_es s horizon _) as [es|e] eqn:Hes; cbn [bind] in Hrun;
    [|discriminate].
  assert (Hsel : exists hist future r name,
             x = (Some hist, Some future, r, name)
             /\ df = sort_by tagged_year
                             (tag historical hist ++ tag forecast future)).
  { unfold sort_candidates, insufficient in Hrun.
    destruct x as [[[[hx|] [fx|]] [rx|]] nx];
      destruct es as [[[[he|] [fe|]] [re|]] ne];
      cbn [candidate_of app fold_left insert_candidate] in Hrun;
      try match type of Hrun with
          | context [flt ?a ?b] => destruct (flt a b)
          end;
      try discriminate Hrun;
      injection Hrun as <-; do 4 eexists; split; reflexivity. }
  destruct Hsel as (hist & future & r & name & -> & ->).
  apply train_xgb_segments in Hx. destruct Hx as (Hh & Hne & Hf).
  pose proof (get_series_sorted data country ind) as Hs. fold s in Hs.
  assert (Hsorted : StronglySorted Z.le
                      (map tagged_year
                           (tag historical hist ++ tag forecast future))).
  { rewrite tagged_years, Hf, Hh, <- skipn_map.
    destruct (years_after_sorted (last (map fst s) 0) horizon) as [Hy Hgt].
    apply strongly_sorted_app.
    - apply strongly_sorted_skipn, strongly_sorted_lt_le. exact Hs.
    - exact Hy.
    - intros a b Ha Hb. rewrite Forall_forall in Hgt. apply Hgt in Hb.
      assert (a <= last (map fst s) 0); [|lia].
      apply strongly_sorted_last; [exact Hs|].
      rewrite <- (firstn_skipn 3 (map fst s)). apply in_or_app. right. exact Ha. }
  rewrite (sort_by_sorted _ _ Hsorted).
  destruct (segment_years_tagged hist future) as [-> ->].
  rewrite Hf, Hh, <- skipn_map. repeat split.
  intros Heq. apply (f_equal (@length Z)) in Heq.
  rewrite length_skipn, length_map in Heq.
  assert (length s <> 0%nat); [|lia].
  subst hist. destruct s; [contradiction|discriminate].
Qed.

End SegmentFacts.

(** The smoothing forecaster, for comparison, returns the whole series
    as its history. *)
Lemma train_es_history (L : Learners) (data : list (Forecast.row L))
      (country ind : string) (horizon test_size : Z)
      (hist : list (Z * num)) (future : option (list (Z * num)))
      (r : option num) (name : string) :
  Forecast._train_es (Forecast._get_series data country ind) horizon test_size
  = Ok (Some hist, future, r, name) ->
  hist = Forecast._get_series data country ind.
Proof.
  unfold Forecast._train_es.
  destruct (_ <=? _); [discriminate|].
  destruct (es_fit _) as [fit|e]; cbn [bind]; [|discriminate].
  destruct (rmse _ _) as [rm|e]; cbn [bind]; [|discriminate].
  destruct (es_fit _) as [full|e]; cbn [bind]; [|discriminate].
  intros [= <- _ _ _]. apply sort_by_sorted.
  apply strongly_sorted_lt_le, get_series_sorted.
Qed.

Lemma run_forecast_insufficient_witness :
  Forecast.run_forecast four_years "DE" "GEP" 5
  = Ok ([], "No forecast (insufficient data)"%string).
Proof.
  apply (@run_forecast_insufficient integer_learners four_years "DE" "GEP" 5).
  vm_compute. lia.
Defined.

Lemma run_forecast_selects_witness :
  Forecast.run_forecast seven_years "DE" "GEP" 5
  = Ok (Forecast.select_lower_rmse
          (Some [(2003, 10); (2004, 10); (2005, 10); (2006, 10)],
           Some [(2007, 10); (2008, 10); (2009, 10); (2010, 10); (2011, 10)],
           Some 0, "XGBoost"%string)
          (Some [(2000, 10); (2001, 10); (2002, 10); (2003, 10); (2004, 10);
                 (2005, 10); (2006, 10)],
           Some [(2007, 10); (2008, 10); (2009, 10); (2010, 10); (2011, 10)],
           Some 0, "ExponentialSmoothing"%string)).
Proof.
  apply (@run_forecast_selects integer_learners seven_years "DE" "GEP" 5).
  - vm_compute. lia.
  - vm_compute. reflexivity.
  - vm_compute. reflexivity.
Defined.

Lemma make_supervised_ten_points_witness :
  length (fst (fst (fst (Forecast._make_supervised ten_years 3)))) = 7%nat.
Proof.
  apply (@make_supervised_ten_points integer_learners ten_years). reflexivity.
Defined.

Lemma recursive_forecast_step_witness :
  exists feats,
    Forecast.future_feats (2000 + 1) [10; 20] = Ok feats
    /\ map Some (f_lags feats)
       = map (Forecast.lag_padded_with_latest [10; 20]) [1; 2; 3]%nat.
Proof.
  destruct (@recursive_forecast_step integer_learners tt 2000 1 [2; 3]
                                     [10; 20] [])
    as (feats & Hf & Hl & _); [discriminate|].
  exists feats. split; assumption.
Defined.

(** C8, refuted as stated: on a working history of two values, 10 then
    20, lag3 is 20, the latest value, and not 10, the oldest one. *)
Lemma lag3_is_padded_with_latest_value :
  exists feats,
    Forecast.future_feats 2001 [10; 20] = Ok feats
    /\ f_lags feats = [20; 10; 20]
    /\ Forecast.lag_padded_with_oldest [10; 20] 3 = Some 10
    /\ nth_error (f_lags feats) 2 <> Forecast.lag_padded_with_oldest [10; 20] 3.
Proof.
  eexists. split; [vm_compute; reflexivity|].
  split; [reflexivity|]. split; [reflexivity|]. vm_compute. discriminate.
Qed.

Lemma xgboost_history_drops_three_years_witness :
  exists df,
    Forecast.run_forecast seven_years "DE" "GEP" 5 = Ok (df, "XGBoost"%string)
    /\ Forecast.segment_years Forecast.historical df = [2003; 2004; 2005; 2006]
    /\ map fst (Forecast._get_series seven_years "DE" "GEP")
       = [2000; 2001; 2002; 2003; 2004; 2005; 2006]
    /\ Forecast.segment_years Forecast.forecast df
       = [2007; 2008; 2009; 2010; 2011].
Proof.
  eexists. split; [vm_compute; reflexivity|].
  match goal with
  | |- Forecast.segment_years _ ?d = _ /\ _ =>
      destruct (@xgboost_history_drops_three_years
                  integer_learners seven_years "DE" "GEP" 5 d eq_refl)
        as (Hh & _ & Hf)
  end.
  split; [rewrite Hh; reflexivity|]. split; [reflexivity|].
  rewrite Hf. reflexivity.
Defined.

(** * Further properties of the code *)

(** ** The index decoder: errors, inverse and boundaries *)

Section DecoderMore.
Import Decoder.

Lemma unravel_loop_zero (rsizes c : list Z) (i : Z) :
  In 0 rsizes -> unravel_loop rsizes c i = Raise ZeroDivisionError.
Proof.
  revert c i. induction rsizes as [|s rest IH]; intros c i Hin; [contradiction|].
  simpl. destruct (Z.eqb_spec s 0) as [_|Hs]; [reflexivity|].
  destruct Hin as [Hin|Hin]; [congruence|]. apply IH. exact Hin.
Qed.

Lemma unravel_loop_raises (rsizes c : list Z) (i : Z) (e : exn) :
  unravel_loop rsizes c i = Raise e -> e = ZeroDivisionError /\ In 0 rsizes.
Proof.
  revert c i. induction rsizes as [|s rest IH]; intros c i; simpl; [discriminate|].
  destruct (Z.eqb_spec s 0) as [->|Hs].
  - intros [= <-]. split; [reflexivity | left; reflexivity].
  - intros H. apply IH in H. destruct H as [-> H]. split; [reflexivity | right; exact H].
Qed.

(** X1. The decoder raises exactly when a size is zero, and then it is
    [ZeroDivisionError], whatever the flat index. *)
Theorem unravel_index_raises_iff_zero_size (i : Z) (sizes : list Z) :
  (unravel_index i sizes = Raise ZeroDivisionError <-> In 0 sizes)
  /\ (forall e, unravel_index i sizes = Raise e -> e = ZeroDivisionError)
  /\ (~ In 0 sizes -> exists coords, unravel_index i sizes = Ok coords).
Proof.
  unfold unravel_index.
  destruct (unravel_loop (rev sizes) [] i) as [r|e] eqn:E; cbn [bind].
  - split; [|split].
    + split; [discriminate|].
      intros Hin. rewrite unravel_loop_zero in E; [discriminate|].
      apply in_rev in Hin. exact Hin.
    + discriminate.
    + intros _. eexists. reflexivity.
  - apply unravel_loop_raises in E. destruct E as [-> Hin].
    apply in_rev in Hin. split; [|split].
    + split; [intros _; exact Hin | reflexivity].
    + intros e [= <-]. reflexivity.
    + intros Hn. contradiction.
Qed.

Lemma in_range_snoc (c sizes : list Z) (s : Z) :
  in_range c (sizes ++ [s]) ->
  exists c' x, c = c' ++ [x] /\ in_range c' sizes /\ 0 <= x < s.
Proof.
  unfold in_range. intros H. apply Forall2_app_inv_r in H.
  destruct H as (c' & l & Hc' & Hl & ->).
  inversion Hl as [|x y l' l'' Hx Hnil]; subst. inversion Hnil; subst.
  exists c', x. auto.
Qed.

Lemma unravel_ravel (sizes : list Z) :
  forall coords, in_range coords sizes ->
  unravel_index (ravel_index coords sizes) sizes = Ok coords.
Proof.
  induction sizes as [|s sizes IH] using rev_ind; intros coords Hr.
  - inversion Hr; subst. reflexivity.
  - apply in_range_snoc in Hr. destruct Hr as (c' & x & -> & Hr & Hx).
    rewrite ravel_index_snoc by (apply in_range_length; exact Hr).
    rewrite unravel_index_snoc by lia.
    replace ((ravel_index c' sizes * s + x) / s) with (ravel_index c' sizes)
      by (apply Z.div_unique_pos with x; [exact Hx | ring]).
    replace ((ravel_index c' sizes * s + x) mod s) with x
      by (apply Z.mod_unique_pos with (ravel_index c' sizes); [exact Hx | ring]).
    rewrite IH by exact Hr. reflexivity.
Qed.

Lemma ravel_index_bounds (sizes : list Z) :
  forall coords, in_range coords sizes ->
  0 <= ravel_index coords sizes < product sizes.
Proof.
  induction sizes as [|s sizes IH] using rev_ind; intros coords Hr.
  - inversion Hr; subst. unfold ravel_index, product. simpl. lia.
  - apply in_range_snoc in Hr. destruct Hr as (c' & x & -> & Hr & Hx).
    rewrite ravel_index_snoc by (apply in_range_length; exact Hr).
    rewrite product_snoc. specialize (IH c' Hr). nia.
Qed.

(** X2. Encoding is the inverse of decoding on coordinates that lie
    within their dimensions: the flat index of such a coordinate list is
    within the cube and decodes to that list. *)
Theorem unravel_index_inverts_ravel (sizes coords : list Z) :
  in_range coords sizes ->
  0 <= ravel_index coords sizes < product sizes
  /\ unravel_index (ravel_index coords sizes) sizes = Ok coords.
Proof.
  intros Hr. split; [apply ravel_index_bounds | apply unravel_ravel]; exact Hr.
Qed.

(** X3. On positive sizes, index 0 decodes to the all-zero coordinate
    and the last index, [product sizes - 1], to the last category of
    every dimension. *)
Theorem unravel_index_boundaries (sizes : list Z) :
  positive_sizes sizes ->
  unravel_index 0 sizes = Ok (map (fun _ => 0) sizes)
  /\ unravel_index (product sizes - 1) sizes = Ok (map (fun s => s - 1) sizes).
Proof.
  induction sizes as [|s sizes IH] using rev_ind; intros Hpos.
  - split; reflexivity.
  - apply positive_snoc in Hpos. destruct Hpos as [Hpos Hs].
    destruct (IH Hpos) as [IH0 IH1].
    pose proof (product_pos _ Hpos) as HP.
    rewrite !map_app, !unravel_index_snoc by lia. cbn [map]. split.
    + rewrite Z.div_0_l, Z.mod_0_l by lia. rewrite IH0. reflexivity.
    + rewrite product_snoc.
      replace ((product sizes * s - 1) / s) with (product sizes - 1)
        by (apply Z.div_unique_pos with (s - 1); [lia | ring]).
      replace ((product sizes * s - 1) mod s) with (s - 1)
        by (apply Z.mod_unique_pos with (product sizes - 1); [lia | ring]).
      rewrite IH1. reflexivity.
Qed.

(** X4. On positive sizes two flat indices, negative ones included,
    decode to the same coordinates exactly when they are congruent
    modulo the product of the sizes. *)
Theorem unravel_index_congruent (sizes : list Z) (i j : Z) :
  positive_sizes sizes ->
  (unravel_index i sizes = unravel_index j sizes
   <-> i mod product sizes = j mod product sizes).
Proof.
  intros Hpos. split.
  - revert i j. induction sizes as [|s sizes IH] using rev_ind; intros i j H.
    + unfold product. simpl. rewrite !Z.mod_1_r. reflexivity.
    + apply positive_snoc in Hpos. destruct Hpos as [Hpos Hs].
      pose proof (product_pos _ Hpos) as HP.
      rewrite !unravel_index_snoc in H by lia.
      destruct (unravel_index_total sizes Hpos (i / s)) as (ci & Hci & _).
      destruct (unravel_index_total sizes Hpos (j / s)) as (cj & Hcj & _).
      rewrite Hci, Hcj in H. cbn [bind] in H. injection H as H.
      apply app_inj_tail in H. destruct H as [Hc Hm].
      assert (Hq : (i / s) mod product sizes = (j / s) mod product sizes).
      { apply IH; [exact Hpos|]. rewrite Hci, Hcj, Hc. reflexivity. }
      rewrite product_snoc.
      replace (product sizes * s) with (s * product sizes) by ring.
      rewrite !Z.rem_mul_r by lia. rewrite Hm, Hq. reflexivity.
  - intros H. rewrite <- (unravel_index_wraps sizes Hpos i).
    rewrite <- (unravel_index_wraps sizes Hpos j). rewrite H. reflexivity.
Qed.

End DecoderMore.

(** ** The transformer: detection, soft and hard failures, cleaning *)

Section PyMore.
Context {A B : Type}.

Lemma traverse_all_ok (f : A -> result B) (l : list A) :
  (forall a, In a l -> exists b, f a = Ok b) ->
  exists r, traverse f l = Ok r.
Proof.
  induction l as [|a l IH]; intros H; cbn [traverse].
  - eexists. reflexivity.
  - destruct (H a (or_introl eq_refl)) as (b & ->).
    destruct IH as (r & ->); [intros x Hx; apply H; right; exact Hx|].
    eexists. reflexivity.
Qed.

Lemma traverse_combine_in (f : A -> result B) (l : list A) (r : list B) :
  traverse f l = Ok r ->
  forall a b, In (a, b) (combine l r) -> f a = Ok b.
Proof.
  revert r. induction l as [|a0 l IH]; intros r; cbn [traverse].
  - intros [= <-] a b [].
  - destruct (f a0) as [b0|e] eqn:E; cbn [bind]; [|discriminate].
    destruct (traverse f l) as [bs|e]; cbn [bind]; [|discriminate].
    intros [= <-] a b [[= <- <-]|Hin]; [exact E|].
    eapply IH; [reflexivity | exact Hin].
Qed.

End PyMore.

Section TransformMore.
Context {B : Builtins}.
Import Decoder Transform.

(** X5. [detect_indicator_dimension] returns the first dimension, in
    dict order, whose labels contain a target indicator, and [None]
    exactly when no dimension has such a label. *)
Theorem detect_indicator_dimension_first (dimensions : dict dim_info)
        (indicators : list string) :
  (detect_indicator_dimension dimensions indicators = None
   <-> forall name info ind,
         In (name, info) dimensions -> In ind indicators ->
         contains (labels_or_empty info) ind = false)
  /\ (forall d, detect_indicator_dimension dimensions indicators = Some d ->
        exists before info after ind,
          dimensions = before ++ (d, info) :: after
          /\ In ind indicators
          /\ contains (labels_or_empty info) ind = true
          /\ detect_indicator_dimension before indicators = None).
Proof.
  induction dimensions as [|[name info] rest [IHn IHs]]; cbn [detect_indicator_dimension].
  - split; [split; [intros _ ? ? ? []|reflexivity] | discriminate].
  - destruct (existsb _ indicators) eqn:E.
    + split.
      * split; [discriminate|]. intros H.
        apply existsb_exists in E. destruct E as (ind & Hin & Hc).
        rewrite (H name info ind (or_introl eq_refl) Hin) in Hc. discriminate.
      * intros d [= <-]. apply existsb_exists in E. destruct E as (ind & Hin & Hc).
        exists [], info, rest, ind. repeat split; assumption.
    + split.
      * rewrite IHn. split.
        -- intros H n' i' ind [[= <- <-]|Hin] Hind.
           ++ destruct (contains (labels_or_empty info) ind) eqn:Hc; [|reflexivity].
              rewrite <- E. symmetry. apply existsb_exists. exists ind. auto.
           ++ eapply H; eassumption.
        -- intros H n' i' ind Hin Hind.
           apply (H n' i' ind); [right; exact Hin | exact Hind].
      * intros d Hd. destruct (IHs d Hd) as (before & i' & after & ind & -> & Hin & Hc & Hb).
        exists ((name, info) :: before), i', after, ind. repeat split; try assumption.
        cbn [detect_indicator_dimension]. rewrite E. exact Hb.
Qed.

(** A cube is well formed when every dimension has a category with its
    labels and its index table, and every dimension id names one. *)
Lemma build_labels_well_formed (dim : dict dim_info) :
  Forall (fun p => exists l ix,
            dim_category (snd p) = Some {| cat_label := Some l; cat_index := Some ix |})
         dim ->
  exists labels, build_labels dim = Ok labels.
Proof.
  induction 1 as [|[k info] rest (l & ix & Hc) _ (ls & IH)]; cbn [build_labels].
  - eexists. reflexivity.
  - cbn [snd] in Hc. rewrite Hc. cbn. rewrite IH. cbn. eexists. reflexivity.
Qed.

Lemma get_in_keys {A} (d : list (string * A)) (k : string) :
  In k (keys d) -> exists v, get d k = Some v /\ In v (map snd d).
Proof.
  induction d as [|[k' v'] d IH]; [intros []|]. cbn [keys map fst get snd].
  destruct (String.eqb_spec k' k) as [->|Hne].
  - intros _. exists v'. split; [reflexivity | left; reflexivity].
  - intros [H|H]; [contradiction|]. destruct (IH H) as (v & Hv & Hin).
    exists v. split; [exact Hv | right; exact Hin].
Qed.

Lemma get_not_in_keys {A} (d : list (string * A)) (k : string) :
  ~ In k (keys d) -> get d k = None.
Proof.
  induction d as [|[k' v'] d IH]; [reflexivity|]. cbn [keys map fst get].
  intros H. destruct (String.eqb_spec k' k) as [->|Hne].
  - exfalso. apply H. left. reflexivity.
  - apply IH. intros Hin. apply H. right. exact Hin.
Qed.

Lemma index_entry_well_formed (dim : dict dim_info) (d : string) :
  Forall (fun p => exists l ix,
            dim_category (snd p) = Some {| cat_label := Some l; cat_index := Some ix |})
         dim ->
  In d (keys dim) ->
  exists ix,
    (info <- item dim d ;;
     c <- of_option (KeyError "category") (dim_category info) ;;
     of_option (KeyError "index") (cat_index c)) = Ok ix.
Proof.
  intros Hwf Hd. destruct (get_in_keys dim d Hd) as (info & Hget & Hin).
  unfold item. rewrite Hget. cbn [of_option bind].
  rewrite Forall_forall in Hwf. apply in_map_iff in Hin.
  destruct Hin as (p & <- & Hp). destruct (Hwf p Hp) as (l & ix & ->).
  exists ix. reflexivity.
Qed.

Lemma build_indexes_well_formed (dim : dict dim_info) (dim_ids : list string) :
  Forall (fun p => exists l ix,
            dim_category (snd p) = Some {| cat_label := Some l; cat_index := Some ix |})
         dim ->
  incl dim_ids (keys dim) ->
  exists indexes, build_indexes dim dim_ids = Ok indexes.
Proof.
  intros Hwf Hincl. unfold build_indexes. apply traverse_all_ok.
  intros d Hd. apply index_entry_well_formed; [exact Hwf | apply Hincl; exact Hd].
Qed.

(** X6. Soft failure: on a well-formed cube the transformer returns the
    empty result, and raises nothing, when no dimension carries a target
    indicator or when the sparse map is empty. *)
Theorem transform_dataset_soft_fails (now : Z) (ds : string) (data : dataset B)
        (targets : list string) :
  Forall (fun p => exists l ix,
            dim_category (snd p) = Some {| cat_label := Some l; cat_index := Some ix |})
         (dimension data) ->
  incl (match id data with Some l => l | None => keys (dimension data) end)
       (keys (dimension data)) ->
  detect_indicator_dimension (dimension data) targets = None \/ value data = [] ->
  transform_dataset now ds data targets = Ok [].
Proof.
  intros Hwf Hincl Hcase. unfold transform_dataset.
  destruct (build_labels_well_formed _ Hwf) as (labels & ->).
  destruct (build_indexes_well_formed _ _ Hwf Hincl) as (indexes & ->).
  cbn [bind].
  destruct (detect_indicator_dimension _ _) as [d|]; [|reflexivity].
  destruct Hcase as [H|H]; [discriminate|].
  destruct (String.eqb d ""); [reflexivity|].
  rewrite H. reflexivity.
Qed.

(** X7. A dimension id that the cube does not define is a [KeyError]
    naming that id, raised before any entry is read: the ids before it
    being defined and every dimension having its labels and index. *)
Theorem transform_dataset_unknown_dimension (now : Z) (ds : string)
        (data : dataset B) (targets : list string)
        (before after : list string) (d : string) :
  Forall (fun p => exists l ix,
            dim_category (snd p) = Some {| cat_label := Some l; cat_index := Some ix |})
         (dimension data) ->
  id data = Some (before ++ d :: after) ->
  incl before (keys (dimension data)) ->
  ~ In d (keys (dimension data)) ->
  transform_dataset now ds data targets = Raise (KeyError d).
Proof.
  intros Hwf Hid Hincl Hmiss. unfold transform_dataset. rewrite Hid.
  destruct (build_labels_well_formed _ Hwf) as (labels & ->). cbn [bind].
  replace (build_indexes (dimension data) (before ++ d :: after))
    with (@Raise (list (dict Z)) (KeyError d)); [reflexivity|].
  symmetry. unfold build_indexes. clear Hid.
  induction before as [|b before IH]; cbn [app traverse].
  - unfold item. rewrite (get_not_in_keys _ _ Hmiss). reflexivity.
  - destruct (index_entry_well_formed (dimension data) b Hwf
                                       (Hincl b (or_introl eq_refl))) as (ix & ->).
    cbn [bind]. rewrite IH; [reflexivity|].
    intros x Hx. apply Hincl. right. exact Hx.
Qed.

End TransformMore.

Section CleaningFacts.
Context {B : Builtins}.
Import Decoder Transform.

Lemma collect_in (f : string * raw B -> result (option (record B)))
      (entries : dict (raw B)) (rs : list (record B)) (r : record B) :
  collect f entries = Ok rs -> In r rs ->
  exists e, In e entries /\ f e = Ok (Some r).
Proof.
  revert rs. induction entries as [|e rest IH]; cbn [collect]; intros rs.
  - intros [= <-] [].
  - destruct (f e) as [o|x] eqn:E; cbn [bind]; [|discriminate].
    destruct (collect f rest) as [rs'|x]; cbn [bind]; [|discriminate].
    intros [= <-] Hin.
    destruct o as [r0|].
    + destruct Hin as [<-|Hin]; [exists e; split; [left; reflexivity|exact E]|].
      destruct (IH rs' eq_refl Hin) as (e' & He' & Hf).
      exists e'. split; [right; exact He'|exact Hf].
    + destruct (IH rs' eq_refl Hin) as (e' & He' & Hf).
      exists e'. split; [right; exact He'|exact Hf].
Qed.

Lemma collect_filter (f : string * raw B -> result (option (record B)))
      (keep : string * raw B -> bool) (entries : dict (raw B)) :
  (forall e, keep e = false -> f e = Ok None) ->
  collect f (filter keep entries) = collect f entries.
Proof.
  intros Hskip. induction entries as [|e rest IH]; [reflexivity|].
  cbn [filter collect]. destruct (keep e) eqn:K.
  - cbn [collect]. rewrite IH. reflexivity.
  - rewrite (Hskip e K). cbn [bind]. rewrite IH.
    destruct (collect f rest); reflexivity.
Qed.

Lemma collect_raises_after_skipped
      (f : string * raw B -> result (option (record B)))
      (skipped rest : dict (raw B)) (e : string * raw B) (x : exn) :
  Forall (fun p => f p = Ok None) skipped -> f e = Raise x ->
  collect f (skipped ++ e :: rest) = Raise x.
Proof.
  intros Hs He. induction Hs as [|p skipped Hp _ IH]; cbn [app collect].
  - rewrite He. reflexivity.
  - rewrite Hp. cbn [bind]. rewrite IH. reflexivity.
Qed.

Lemma entry_record_skips_non_numeric (ds : string) (sizes : list Z)
      (dim_ids : list string) (labels : dict (dict string))
      (indexes : list (dict Z)) (ind : string) (targets : list string)
      (e : string * raw B) :
  to_float (snd e) = None ->
  entry_record ds sizes dim_ids labels indexes ind targets e = Ok None.
Proof. destruct e as [k v]. cbn [snd]. unfold entry_record. intros ->. reflexivity. Qed.

Lemma entry_record_origin (ds : string) (sizes : list Z)
      (dim_ids : list string) (labels : dict (dict string))
      (indexes : list (dict Z)) (ind : string) (targets : list string)
      (entry : string * raw B) (r : record B) :
  entry_record ds sizes dim_ids labels indexes ind targets entry = Ok (Some r) ->
  dataset_code r = ds
  /\ to_float (snd entry) = Some (val r)
  /\ exists code, indicator_code r = Some code /\ In code targets.
Proof.
  unfold entry_record. destruct entry as [k v]. cbn [snd].
  destruct (to_float v) as [x|]; [|discriminate].
  destruct (int_of_str k) as [n|]; simpl; [|discriminate].
  destruct (unravel_index n sizes) as [idx|e]; simpl; [|discriminate].
  destruct (entry_keys indexes idx) as [ks|e]; simpl; [|discriminate].
  destruct (entry_dim_map dim_ids ks) as [m|e]; simpl; [|discriminate].
  destruct (get m ind) as [c|] eqn:Hind; [|discriminate].
  destruct (existsb (String.eqb c) targets) eqn:Hex; [|discriminate].
  intros [= <-]. cbn. repeat split. exists c. split; [reflexivity|].
  apply existsb_exists in Hex. destruct Hex as (t & Ht & Heq).
  apply String.eqb_eq in Heq. subst. exact Ht.
Qed.

Lemma drop_duplicates_incl (df : list (record B)) (r : record B) :
  In r (drop_duplicates df) -> In r df.
Proof.
  unfold drop_duplicates. intros H. apply in_map_iff in H.
  destruct H as ([r' b] & <- & H). apply filter_In in H. destruct H as [H _].
  apply in_combine_l in H. exact H.
Qed.

Lemma count_true_zero (l : list bool) :
  count_true l <= 0 -> existsb (fun b => b) l = false.
Proof.
  unfold count_true. induction l as [|b l IH]; [reflexivity|].
  cbn [filter existsb]. destruct b; cbn [length orb].
  - lia.
  - exact IH.
Qed.

Lemma count_true_nonneg (l : list bool) : 0 <= count_true l.
Proof. unfold count_true. lia. Qed.

Lemma no_missing_cells (df : list (record B)) :
  fold_right Z.add 0 (map (fun r => count_true (null_cells r)) df) <= 0 ->
  Forall (fun r => existsb (fun b => b) (null_cells r) = false) df.
Proof.
  induction df as [|r df IH]; cbn [map fold_right]; intros H; constructor.
  - apply count_true_zero.
    assert (0 <= fold_right Z.add 0 (map (fun r => count_true (null_cells r)) df)).
    { clear. induction df as [|a df IH]; cbn [map fold_right]; [lia|].
      pose proof (count_true_nonneg (null_cells a)). lia. }
    pose proof (count_true_nonneg (null_cells r)). lia.
  - apply IH.
    pose proof (count_true_nonneg (null_cells r)). lia.
Qed.

(** The frame after each of the two cleaning steps of [transform_dataset]. *)
Lemma deduplicated_incl (df : list (record B)) :
  incl (if 0 <? count_true (duplicated df) then drop_duplicates df else df) df.
Proof.
  destruct (0 <? count_true (duplicated df)); [|apply incl_refl].
  intros r. apply drop_duplicates_incl.
Qed.

Lemma without_missing (df : list (record B)) :
  incl (if 0 <? fold_right Z.add 0 (map (fun r => count_true (null_cells r)) df)
        then dropna df else df) df
  /\ Forall (fun r => existsb (fun b => b) (null_cells r) = false)
            (if 0 <? fold_right Z.add 0 (map (fun r => count_true (null_cells r)) df)
             then dropna df else df).
Proof.
  destruct (Z.ltb_spec 0 (fold_right Z.add 0
                         (map (fun r => count_true (null_cells r)) df))) as [Hlt|Hge].
  - split.
    + intros r Hr. unfold dropna in Hr. apply filter_In in Hr. tauto.
    + apply Forall_forall. intros r Hr. unfold dropna in Hr.
      apply filter_In in Hr. destruct Hr as [_ Hr].
      apply negb_true_iff in Hr. exact Hr.
  - split; [apply incl_refl|]. apply no_missing_cells. exact Hge.
Qed.

(** X8. Every row the transformer returns carries the dataset code and
    the load time of the call, an indicator of the allow-list, a
    non-null entity code and name, indicator label and value, and a time
    text that parses as a year, which is the row's parsed time. *)
Theorem transform_dataset_rows_clean (now : Z) (ds : string) (data : dataset B)
        (targets : list string) (rows : list (observation B)) :
  transform_dataset now ds data targets = Ok rows ->
  Forall (fun o =>
            dataset_code (obs_fields o) = ds
            /\ load_timestamp o = now
            /\ (exists code, indicator_code (obs_fields o) = Some code
                             /\ In code targets)
            /\ country_code (obs_fields o) <> None
            /\ country_name (obs_fields o) <> None
            /\ indicator_label (obs_fields o) <> None
            /\ float_isnull (val (obs_fields o)) = false
            /\ exists s y, time (obs_fields o) = Some s
                           /\ year_of_str s = Some y
                           /\ obs_time o = Some y)
         rows.
Proof.
  unfold transform_dataset.
  destruct (build_labels _) as [labels|e]; cbn [bind]; [|discriminate].
  destruct (build_indexes _ _) as [indexes|e]; cbn [bind]; [|discriminate].
  destruct (detect_indicator_dimension _ _) as [ind|]; [|intros [= <-]; constructor].
  destruct (String.eqb ind ""); [intros [= <-]; constructor|].
  destruct (collect _ _) as [result|e] eqn:Hc; cbn [bind]; [|discriminate].
  destruct result as [|r0 result]; [intros [= <-]; constructor|].
  pose proof (deduplicated_incl (r0 :: result)) as Hincl1.
  match type of Hincl1 with incl ?d _ => set (df1 := d) in * end.
  destruct (without_missing df1) as [Hincl2 Hclean].
  match type of Hincl2 with incl ?d _ => set (df2 := d) in * end.
  assert (Hincl : incl df2 (r0 :: result))
    by (intros a Ha; apply Hincl1, Hincl2; exact Ha).
  destruct (traverse parse_time df2) as [times|e] eqn:Ht; cbn [bind]; [|discriminate].
  intros [= <-]. apply Forall_forall. intros o Ho.
  apply in_map_iff in Ho. destruct Ho as ([r t] & <- & Hin).
  cbn [obs_fields obs_time load_timestamp fst snd].
  pose proof (traverse_combine_in _ _ _ Ht _ _ Hin) as Hparse.
  apply in_combine_l in Hin.
  rewrite Forall_forall in Hclean. pose proof (Hclean r Hin) as Hnull.
  destruct (collect_in _ _ _ r Hc (Hincl r Hin)) as (entry & _ & Hentry).
  apply entry_record_origin in Hentry. destruct Hentry as (Hds & _ & Hcode).
  unfold null_cells in Hnull. cbn [existsb] in Hnull.
  repeat (apply orb_false_iff in Hnull;
          let H := fresh "Hcell" in destruct Hnull as [H Hnull]).
  unfold parse_time in Hparse.
  destruct (time r) as [tm|]; [|discriminate].
  destruct (year_of_str tm) as [y|] eqn:Hy; cbn in Hparse; [|discriminate].
  injection Hparse as <-.
  repeat split; try assumption;
    try (intros Hnone; rewrite Hnone in *; discriminate).
  exists tm, y. auto.
Qed.

Lemma existsb_app_false {A} (p : A -> bool) (l1 l2 : list A) :
  existsb p (l1 ++ l2) = false -> existsb p l1 = false.
Proof. rewrite existsb_app. intros H. apply orb_false_iff in H. tauto. Qed.

(** The rows that [duplicated] leaves unmarked, when [seen] are the rows
    already met. *)
Lemma unmarked_rows_fresh (seen df : list (record B)) (r : record B) :
  In r (map fst (filter (fun p => negb (snd p))
                        (combine df (duplicated_from seen df)))) ->
  existsb (same_record r) seen = false.
Proof.
  revert seen. induction df as [|a df IH]; intros seen; cbn [duplicated_from combine filter];
    [intros []|].
  cbn [snd]. destruct (existsb (same_record a) seen) eqn:E; cbn [negb map fst].
  - intros H. apply IH in H. eapply existsb_app_false. exact H.
  - intros [<-|H]; [exact E|]. apply IH in H. eapply existsb_app_false. exact H.
Qed.

Lemma unmarked_rows_distinct (seen df : list (record B)) :
  ForallOrdPairs (fun a b => same_record b a = false)
                 (map fst (filter (fun p => negb (snd p))
                                  (combine df (duplicated_from seen df)))).
Proof.
  revert seen. induction df as [|a df IH]; intros seen; cbn [duplicated_from combine filter].
  - constructor.
  - cbn [snd]. destruct (existsb (same_record a) seen); cbn [negb map fst]; [apply IH|].
    constructor; [|apply IH].
    apply Forall_forall. intros b Hb. apply unmarked_rows_fresh in Hb.
    rewrite existsb_app in Hb. apply orb_false_iff in Hb. destruct Hb as [_ Hb].
    cbn in Hb. rewrite orb_false_r in Hb. exact Hb.
Qed.

Lemma duplicated_from_length (seen df : list (record B)) :
  length (duplicated_from seen df) = length df.
Proof.
  revert seen. induction df as [|a df IH]; intros seen; cbn; [reflexivity|].
  rewrite IH. reflexivity.
Qed.

Lemma all_false_unmarked (df : list (record B)) (flags : list bool) :
  length flags = length df -> count_true flags <= 0 ->
  map fst (filter (fun p => negb (snd p)) (combine df flags)) = df.
Proof.
  revert flags. induction df as [|a df IH]; intros [|b flags]; cbn [length];
    try discriminate; [reflexivity|].
  intros [= Hlen] Hc. unfold count_true in Hc. cbn [filter] in Hc.
  destruct b; cbn [length] in Hc; [lia|].
  cbn [combine filter snd negb map fst]. rewrite IH; [reflexivity|exact Hlen|exact Hc].
Qed.

Lemma ForallOrdPairs_filter {A} (R : A -> A -> Prop) (p : A -> bool) (l : list A) :
  ForallOrdPairs R l -> ForallOrdPairs R (filter p l).
Proof.
  induction 1 as [|a l Ha _ IH]; cbn [filter]; [constructor|].
  destruct (p a); [|exact IH]. constructor; [|exact IH].
  apply Forall_forall. intros b Hb. apply filter_In in Hb.
  rewrite Forall_forall in Ha. apply Ha. tauto.
Qed.

Lemma map_fst_combine_traverse {A C} (f : A -> result C) (l : list A) (r : list C) :
  traverse f l = Ok r -> map fst (combine l r) = l.
Proof.
  intros H. apply traverse_length in H. revert r H.
  induction l as [|a l IH]; intros [|c r]; cbn; try discriminate; [reflexivity|].
  intros [= H]. rewrite IH by exact H. reflexivity.
Qed.

Lemma deduplicated_distinct (df : list (record B)) :
  ForallOrdPairs (fun a b => same_record b a = false)
                 (if 0 <? count_true (duplicated df) then drop_duplicates df else df).
Proof.
  destruct (Z.ltb_spec 0 (count_true (duplicated df))) as [_|Hz].
  - apply unmarked_rows_distinct.
  - rewrite <- (all_false_unmarked df (duplicated df));
      [apply unmarked_rows_distinct | apply duplicated_from_length | exact Hz].
Qed.

Lemma without_missing_distinct (df : list (record B)) :
  ForallOrdPairs (fun a b => same_record b a = false) df ->
  ForallOrdPairs (fun a b => same_record b a = false)
                 (if 0 <? fold_right Z.add 0
                            (map (fun r => count_true (null_cells r)) df)
                  then dropna df else df).
Proof.
  intros H. destruct (0 <? _); [|exact H].
  apply ForallOrdPairs_filter. exact H.
Qed.

(** X9. No two rows the transformer returns are equal in every column:
    of equal records only the first is kept. *)
Theorem transform_dataset_rows_distinct (now : Z) (ds : string) (data : dataset B)
        (targets : list string) (rows : list (observation B)) :
  transform_dataset now ds data targets = Ok rows ->
  ForallOrdPairs (fun a b => same_record (obs_fields b) (obs_fields a) = false) rows.
Proof.
  unfold transform_dataset.
  destruct (build_labels _) as [labels|e]; cbn [bind]; [|discriminate].
  destruct (build_indexes _ _) as [indexes|e]; cbn [bind]; [|discriminate].
  destruct (detect_indicator_dimension _ _) as [ind|]; [|intros [= <-]; constructor].
  destruct (String.eqb ind ""); [intros [= <-]; constructor|].
  destruct (collect _ _) as [result|e] eqn:Hc; cbn [bind]; [|discriminate].
  destruct result as [|r0 result]; [intros [= <-]; constructor|].
  pose proof (without_missing_distinct _ (deduplicated_distinct (r0 :: result))) as H2.
  match type of H2 with ForallOrdPairs _ ?d => set (df2 := d) in * end.
  destruct (traverse parse_time df2) as [times|e] eqn:Ht; cbn [bind]; [|discriminate].
  intros [= <-].
  pose proof (map_fst_combine_traverse _ _ _ Ht) as Hfst.
  assert (Hrows : forall l : list (record B * option Z),
             ForallOrdPairs (fun a b => same_record b a = false) (map fst l) ->
             ForallOrdPairs
               (fun a b => same_record (obs_fields b) (obs_fields a) = false)
               (map (fun p => {| obs_fields := fst p; obs_time := snd p;
                                 load_timestamp := now |}) l)).
  { clear. induction l as [|p l IH]; cbn [map]; intros H; [constructor|].
    inversion H as [|a l' Ha Hl]; subst. constructor; [|apply IH; exact Hl].
    rewrite Forall_map in Ha |- *. exact Ha. }
  apply Hrows. rewrite Hfst. exact H2.
Qed.

(** X10. An entry whose value is not numeric is passed over before its
    key is read: the result is that of the cube without such entries. *)
Theorem transform_dataset_ignores_non_numeric (now : Z) (ds : string)
        (data : dataset B) (targets : list string) :
  transform_dataset now ds data targets
  = transform_dataset now ds
      {| dimension := dimension data;
         id := id data;
         size := size data;
         value := filter (fun e => match to_float (snd e) with
                                   | Some _ => true
                                   | None => false
                                   end) (value data) |}
      targets.
Proof.
  unfold transform_dataset. cbn [dimension id size value].
  destruct (build_labels _) as [labels|e]; cbn [bind]; [|reflexivity].
  destruct (build_indexes _ _) as [indexes|e]; cbn [bind]; [|reflexivity].
  destruct (detect_indicator_dimension _ _) as [ind|]; [|reflexivity].
  destruct (String.eqb ind ""); [reflexivity|].
  rewrite collect_filter; [reflexivity|].
  intros e He. apply entry_record_skips_non_numeric.
  destruct (to_float (snd e)); [discriminate|reflexivity].
Qed.

(** X11. Hard failures of the entry loop.  When the first entry with a
    numeric value has a key that is not an integer, the transformer
    raises [ValueError]; when its key is an integer and a size is zero,
    it raises [ZeroDivisionError].  The entries after it are not read. *)
Theorem transform_dataset_entry_errors (now : Z) (ds : string) (data : dataset B)
        (targets : list string) (labels : dict (dict string))
        (indexes : list (dict Z)) (ind : string)
        (skipped rest : dict (raw B)) (k : string) (v : raw B) (x : pyfloat) :
  build_labels (dimension data) = Ok labels ->
  build_indexes (dimension data)
                (match id data with Some l => l | None => keys (dimension data) end)
  = Ok indexes ->
  detect_indicator_dimension (dimension data) targets = Some ind ->
  ind <> ""%string ->
  value data = skipped ++ (k, v) :: rest ->
  Forall (fun e => to_float (snd e) = None) skipped ->
  to_float v = Some x ->
  (int_of_str k = None ->
   transform_dataset now ds data targets = Raise ValueError)
  /\ (forall n, int_of_str k = Some n -> In 0 (size data) ->
        transform_dataset now ds data targets = Raise ZeroDivisionError).
Proof.
  intros Hl Hix Hd Hne Hv Hs Hx.
  assert (Hrun : forall e,
             entry_record ds (size data)
                          (match id data with Some l => l | None => keys (dimension data) end)
                          labels indexes ind targets (k, v) = Raise e ->
             transform_dataset now ds data targets = Raise e).
  { intros e He. unfold transform_dataset. rewrite Hl, Hix, Hd. cbn [bind].
    destruct (String.eqb_spec ind "") as [|_]; [contradiction|].
    rewrite Hv. rewrite (collect_raises_after_skipped _ _ _ _ e); [reflexivity| |exact He].
    eapply Forall_impl; [|exact Hs]. intros p Hp.
    apply entry_record_skips_non_numeric. exact Hp. }
  split.
  - intros Hk. apply Hrun. unfold entry_record. rewrite Hx, Hk. reflexivity.
  - intros n Hk Hz. apply Hrun. unfold entry_record. rewrite Hx, Hk. cbn [of_option bind].
    unfold unravel_index. rewrite unravel_loop_zero; [reflexivity|].
    apply in_rev in Hz. exact Hz.
Qed.

End CleaningFacts.

(** ** The transformer: from coordinates to category codes *)

Section LabellingFacts.
Context {B : Builtins}.
Import Decoder Transform.

Lemma index_nat_iff {A} (l : list A) (i : nat) (x : A) :
  index l (Z.of_nat i) = Ok x <-> nth_error l i = Some x.
Proof.
  unfold index. cbv zeta.
  assert (E : (Z.of_nat i <? 0) = false) by (apply Z.ltb_ge; lia).
  rewrite E. cbv iota. rewrite E. cbn [orb]. rewrite Nat2Z.id.
  destruct (Z.leb_spec (Z.of_nat (length l)) (Z.of_nat i)) as [Hge|Hlt].
  - split; [discriminate|]. intros H.
    assert (Hs : nth_error l i <> None) by congruence.
    apply nth_error_Some in Hs. lia.
  - destruct (nth_error l i) as [y|]; cbn [of_option]; split; congruence.
Qed.

Lemma traverse_nth {A C} (f : A -> result C) (l : list A) (r : list C) :
  traverse f l = Ok r ->
  forall i a, nth_error l i = Some a ->
              exists b, nth_error r i = Some b /\ f a = Ok b.
Proof.
  revert r. induction l as [|a0 l IH]; intros r; cbn [traverse].
  - intros _ [|i] a; discriminate.
  - destruct (f a0) as [b0|e] eqn:E; cbn [bind]; [|discriminate].
    destruct (traverse f l) as [bs|e]; cbn [bind]; [|discriminate].
    intros [= <-] [|i] a; cbn [nth_error].
    + intros [= <-]. exists b0. auto.
    + apply IH. reflexivity.
Qed.

Lemma get_set {A} (m : dict A) (k k' : string) (v : A) :
  get (set m k v) k' = if String.eqb k k' then Some v else get m k'.
Proof.
  induction m as [|[k0 v0] m IH]; cbn [set get].
  - reflexivity.
  - destruct (String.eqb_spec k0 k) as [->|Hne]; cbn [get].
    + destruct (String.eqb k k'); reflexivity.
    + rewrite IH. destruct (String.eqb_spec k0 k') as [->|_]; [|reflexivity].
      destruct (String.eqb_spec k k'); [congruence | reflexivity].
Qed.

Lemma get_fold_set_other (pairs : list (string * string)) (m : dict string) (d : string) :
  ~ In d (map fst pairs) ->
  get (fold_left (fun m p => set m (fst p) (snd p)) pairs m) d = get m d.
Proof.
  revert m. induction pairs as [|[d0 k0] pairs IH]; intros m Hn; [reflexivity|].
  cbn [fold_left fst snd]. rewrite IH by (intros H; apply Hn; right; exact H).
  rewrite get_set. destruct (String.eqb_spec d0 d) as [->|_]; [|reflexivity].
  exfalso. apply Hn. left. reflexivity.
Qed.

Lemma get_fold_set (pairs : list (string * string)) (m : dict string) (d k : string) :
  NoDup (map fst pairs) -> In (d, k) pairs ->
  get (fold_left (fun m p => set m (fst p) (snd p)) pairs m) d = Some k.
Proof.
  revert m. induction pairs as [|[d0 k0] pairs IH]; intros m Hnd Hin; [contradiction|].
  cbn [map fst] in Hnd. inversion Hnd as [|? ? Hnot Hnd']; subst.
  cbn [fold_left fst snd]. destruct Hin as [[= -> ->]|Hin].
  - rewrite get_fold_set_other by exact Hnot. rewrite get_set, String.eqb_refl. reflexivity.
  - apply IH; assumption.
Qed.

(** The dimension-code lookup of an entry: each dimension id is bound
    to the key at the entry's coordinate in that dimension's index
    table, and an id that is not listed is unbound. *)
Lemma entry_dim_map_binds (dim_ids ks : list string) (m : dict string) :
  NoDup dim_ids ->
  entry_dim_map dim_ids ks = Ok m ->
  (forall i d, nth_error dim_ids i = Some d ->
               exists k, nth_error ks i = Some k /\ get m d = Some k)
  /\ (forall d, ~ In d dim_ids -> get m d = None).
Proof.
  intros Hnd. unfold entry_dim_map.
  destruct (traverse _ _) as [pairs|e] eqn:Ht; cbn [bind]; [|discriminate].
  intros [= <-].
  assert (Hnth : forall i d, nth_error dim_ids i = Some d ->
                   exists k, nth_error ks i = Some k /\ nth_error pairs i = Some (d, k)).
  { intros i d Hd.
    assert (Hi : (i < length dim_ids)%nat) by (apply nth_error_Some; congruence).
    destruct (traverse_nth _ _ _ Ht i i) as (p & Hp & Hf).
    { rewrite nth_error_seq. destruct (Nat.ltb_spec i (length dim_ids)); [reflexivity|lia]. }
    apply index_nat_iff in Hd. rewrite Hd in Hf. cbn [bind] in Hf.
    destruct (index ks (Z.of_nat i)) as [k|e] eqn:Hk; cbn [bind] in Hf; [|discriminate].
    injection Hf as <-. apply index_nat_iff in Hk. exists k. auto. }
  assert (Hfst : map fst pairs = dim_ids).
  { apply nth_error_ext. intros i. rewrite nth_error_map.
    destruct (nth_error dim_ids i) as [d|] eqn:Hd.
    - destruct (Hnth i d Hd) as (k & _ & ->). reflexivity.
    - apply nth_error_None in Hd. apply traverse_length in Ht. rewrite length_seq in Ht.
      replace (nth_error pairs i) with (@None (string * string)); [reflexivity|].
      symmetry. apply nth_error_None. lia. }
  split.
  - intros i d Hd. destruct (Hnth i d Hd) as (k & Hk & Hp).
    exists k. split; [exact Hk|].
    apply get_fold_set; [rewrite Hfst; exact Hnd | eapply nth_error_In; exact Hp].
  - intros d Hn. rewrite get_fold_set_other; [reflexivity | rewrite Hfst; exact Hn].
Qed.

Lemma entry_keys_nth (indexes : list (dict Z)) (idx : list Z) (ks : list string) :
  entry_keys indexes idx = Ok ks ->
  forall i k, nth_error ks i = Some k ->
    exists ix c, nth_error indexes i = Some ix /\ nth_error idx i = Some c
                 /\ index (keys ix) c = Ok k.
Proof.
  unfold entry_keys. intros Ht i k Hk.
  assert (Hi : (i < length idx)%nat).
  { apply traverse_length in Ht. rewrite length_seq in Ht.
    rewrite <- Ht. apply nth_error_Some. congruence. }
  destruct (traverse_nth _ _ _ Ht i i) as (k' & Hk' & Hf).
  { rewrite nth_error_seq. destruct (Nat.ltb_spec i (length idx)); [reflexivity|lia]. }
  rewrite Hk in Hk'. injection Hk' as <-.
  destruct (index indexes (Z.of_nat i)) as [ix|e] eqn:Hix; cbn [bind] in Hf; [|discriminate].
  destruct (index idx (Z.of_nat i)) as [c|e] eqn:Hc; cbn [bind] in Hf; [|discriminate].
  apply index_nat_iff in Hix, Hc. exists ix, c. auto.
Qed.

(** X22. The codes of a record are read at the decoded coordinates.
    For distinct dimension ids, the [i]-th id being [d], the entry's
    code for [d] is the key found at position [coords[i]] of the [i]-th
    index table, in the table's key order; it becomes the entity code
    when [d] is "geo", the time when "time", the unit code when "unit"
    and the indicator code when [d] is the indicator dimension.  A field
    whose dimension is not among the ids is null. *)
Theorem entry_record_codes_at_coordinates (ds : string) (sizes : list Z)
        (dim_ids : list string) (labels : dict (dict string))
        (indexes : list (dict Z)) (ind : string) (targets : list string)
        (key : string) (v : raw B) (r : record B) :
  NoDup dim_ids ->
  entry_record ds sizes dim_ids labels indexes ind targets (key, v) = Ok (Some r) ->
  exists n coords,
    int_of_str key = Some n
    /\ unravel_index n sizes = Ok coords
    /\ (forall i d, nth_error dim_ids i = Some d ->
          exists ix c k,
            nth_error indexes i = Some ix
            /\ nth_error coords i = Some c
            /\ index (keys ix) c = Ok k
            /\ (d = "geo"%string -> country_code r = Some k)
            /\ (d = "time"%string -> time r = Some k)
            /\ (d = "unit"%string -> unit_code r = Some k)
            /\ (d = ind -> indicator_code r = Some k))
    /\ (~ In "geo"%string dim_ids -> country_code r = None /\ country_name r = None)
    /\ (~ In "time"%string dim_ids -> time r = None)
    /\ (~ In "unit"%string dim_ids -> unit_code r = None /\ unit_label r = None).
Proof.
  intros Hnd. unfold entry_record.
  destruct (to_float v) as [x|]; [|discriminate].
  destruct (int_of_str key) as [n|]; cbn [of_option bind]; [|discriminate].
  destruct (unravel_index n sizes) as [coords|e] eqn:Hu; cbn [bind]; [|discriminate].
  destruct (entry_keys indexes coords) as [ks|e] eqn:Hks; cbn [bind]; [|discriminate].
  destruct (entry_dim_map dim_ids ks) as [m|e] eqn:Hm; cbn [bind]; [|discriminate].
  destruct (entry_dim_map_binds _ _ _ Hnd Hm) as [Hbound Hunbound].
  destruct (get m ind) as [code|] eqn:Hind; [|discriminate].
  destruct (negb _); [discriminate|].
  intros [= <-]. exists n, coords.
  cbn [country_code country_name time unit_code unit_label indicator_code].
  split; [reflexivity|]. split; [exact Hu|]. split; [|split; [|split]].
  - intros i d Hd. destruct (Hbound i d Hd) as (k & Hk & Hget).
    destruct (entry_keys_nth _ _ _ Hks i k Hk) as (ix & c & Hix & Hc & Hkey).
    exists ix, c, k. repeat split; try assumption; intros ->; try exact Hget.
    rewrite Hind in Hget. exact Hget.
  - intros Hn. rewrite (Hunbound _ Hn). split; reflexivity.
  - intros Hn. apply Hunbound. exact Hn.
  - intros Hn. rewrite (Hunbound _ Hn). split; reflexivity.
Qed.

End LabellingFacts.

(** ** The series: grouping by year *)

Section GroupingFacts.
Context {L : Learners}.
Import Forecast.

Lemma group_insert_has_key (y : Z) (v : num) (groups : list (Z * list num)) :
  forall k, k = y \/ In k (map fst groups) ->
            In k (map fst (group_insert y v groups)).
Proof.
  induction groups as [|[y' vs] rest IH]; cbn [group_insert map fst In]; intros k.
  - intros [->|[]]. left. reflexivity.
  - destruct (Z.ltb_spec y y') as [_|_]; cbn [map fst In]; [intuition|].
    destruct (Z.eqb_spec y y') as [->|_]; cbn [map fst In]; [intuition|].
    intros [->|[<-|H]]; [right; apply IH; left; reflexivity | left; reflexivity
                        | right; apply IH; right; exact H].
Qed.

(** The values gathered for year [k] once the rows [df] are grouped. *)
Lemma group_insert_values (y : Z) (v : num) (groups : list (Z * list num)) :
  StronglySorted Z.lt (map fst groups) ->
  forall k vs,
    In (k, vs) (group_insert y v groups) ->
    (k = y /\ ((~ In y (map fst groups) /\ vs = [v])
               \/ exists old, In (y, old) groups /\ vs = old ++ [v]))
    \/ (k <> y /\ In (k, vs) groups).
Proof.
  induction groups as [|[y' vs'] rest IH]; cbn [group_insert map fst]; intros Hs k vs.
  - intros [[= <- <-]|[]]. left. split; [reflexivity|]. left. split; [intros []|reflexivity].
  - apply StronglySorted_inv in Hs. destruct Hs as [Hrest Hy'].
    rewrite Forall_forall in Hy'.
    destruct (Z.ltb_spec y y') as [Hlt|Hge].
    + intros [[= <- <-]|Hin].
      * left. split; [reflexivity|]. left. split; [|reflexivity].
        intros [Heq|Hin]; [cbn in Heq; lia|]. apply Hy' in Hin. lia.
      * destruct (Z.eq_dec k y) as [->|Hne]; [|right; split; assumption].
        exfalso. destruct Hin as [[= <- <-]|Hin]; [lia|].
        assert (In y (map fst rest)) as Hk
            by (apply in_map_iff; exists (y, vs); auto).
        apply Hy' in Hk. lia.
    + destruct (Z.eqb_spec y y') as [->|Hne].
      * intros [[= <- <-]|Hin].
        -- left. split; [reflexivity|]. right. exists vs'. split; [left; reflexivity|reflexivity].
        -- right. split; [|right; exact Hin].
           intros ->. assert (In y' (map fst rest)) as Hk
               by (apply in_map_iff; exists (y', vs); auto).
           apply Hy' in Hk. lia.
      * intros [[= <- <-]|Hin].
        -- right. split; [congruence | left; reflexivity].
        -- destruct (IH Hrest k vs Hin) as [[-> Hcase]|[Hk Hin']].
           ++ left. split; [reflexivity|]. destruct Hcase as [[Hnot ->]|(old & Hold & ->)].
              ** left. split; [|reflexivity]. intros [Heq|H]; [cbn in Heq; congruence|contradiction].
              ** right. exists old. split; [right; exact Hold | reflexivity].
           ++ right. split; [exact Hk | right; exact Hin'].
Qed.

Lemma groupby_year_snoc (df : list (Z * num)) (p : Z * num) :
  groupby_year (df ++ [p]) = group_insert (fst p) (snd p) (groupby_year df).
Proof. unfold groupby_year. rewrite fold_left_app. reflexivity. Qed.

Lemma filter_no_key (df : list (Z * num)) (k : Z) :
  ~ In k (map fst df) -> filter (fun q => fst q =? k) df = [].
Proof.
  induction df as [|q df IH]; [reflexivity|]. cbn [filter map In]. intros Hnot.
  destruct (Z.eqb_spec (fst q) k) as [Heq|_].
  - exfalso. apply Hnot. left. exact Heq.
  - apply IH. intros H. apply Hnot. right. exact H.
Qed.

Lemma groupby_year_groups (df : list (Z * num)) :
  (forall k, In k (map fst (groupby_year df)) <-> In k (map fst df))
  /\ (forall k vs, In (k, vs) (groupby_year df) ->
                   vs = map snd (filter (fun p => fst p =? k) df)).
Proof.
  induction df as [|p df [IHk IHv]] using rev_ind.
  - split; [intros k; reflexivity | intros k vs []].
  - rewrite groupby_year_snoc. split.
    + intros k. rewrite map_app, in_app_iff. cbn [map In]. split.
      * intros H. apply group_insert_keys in H. rewrite IHk in H. intuition.
      * intros H. apply group_insert_has_key. rewrite IHk. intuition.
    + intros k vs Hin.
      apply group_insert_values in Hin; [|apply groupby_year_sorted].
      rewrite filter_app, map_app. cbn [filter].
      destruct Hin as [[-> Hcase]|[Hne Hin]].
      * rewrite Z.eqb_refl. cbn [map]. destruct Hcase as [[Hnot ->]|(old & Hold & ->)].
        -- rewrite IHk in Hnot. rewrite (filter_no_key _ _ Hnot). reflexivity.
        -- rewrite (IHv _ _ Hold). reflexivity.
      * replace (fst p =? k) with false by (symmetry; apply Z.eqb_neq; congruence).
        cbn [map]. rewrite app_nil_r. apply IHv. exact Hin.
Qed.

(** X12. The derived series has one point per year that occurs among
    the rows of the entity and indicator, in strictly increasing year
    order, and the value of a year is the mean of that year's values in
    row order; without such rows the series is empty. *)
Theorem get_series_groups_by_year (data : list (row L)) (country ind : string) :
  let rows := filter (fun r => String.eqb (geo r) country
                               && String.eqb (indicator r) ind) data in
  let s := _get_series data country ind in
  StronglySorted Z.lt (map fst s)
  /\ (forall y, In y (map fst s) <-> exists r, In r rows /\ dt_year (time r) = y)
  /\ (forall y v, In (y, v) s ->
        v = group_mean (map value (filter (fun r => dt_year (time r) =? y) rows)))
  /\ (rows = [] -> s = []).
Proof.
  intros rows s. split; [apply get_series_sorted|].
  assert (Hs : s = map (fun g => (fst g, group_mean (snd g)))
                       (groupby_year (map (fun r => (dt_year (time r), value r)) rows))).
  { subst s. unfold _get_series. fold rows.
    destruct rows as [|r0 rows'] eqn:Hrows; [reflexivity|]. cbn [is_empty].
    apply sort_by_sorted. rewrite map_map. cbn [fst].
    apply strongly_sorted_lt_le. apply groupby_year_sorted. }
  destruct (groupby_year_groups (map (fun r => (dt_year (time r), value r)) rows))
    as [Hk Hv].
  split; [|split].
  - intros y. rewrite Hs, map_map. cbn [fst]. rewrite Hk, map_map. cbn [fst].
    rewrite in_map_iff. split; intros (r & H1 & H2); exists r; auto.
  - intros y v Hin. rewrite Hs in Hin. apply in_map_iff in Hin.
    destruct Hin as ([k vs] & [= <- <-] & Hin). cbn [fst snd].
    rewrite (Hv _ _ Hin). f_equal.
    clear. induction rows as [|r rows IH]; [reflexivity|]. cbn [map filter fst].
    destruct (dt_year (time r) =? k); cbn [map snd]; rewrite IH; reflexivity.
  - intros Hrows. subst s. unfold _get_series. fold rows. rewrite Hrows. reflexivity.
Qed.

End GroupingFacts.

(** ** The feature builder for any lag depth *)

Section SupervisedFacts.
Context {L : Learners}.
Import Forecast.

Lemma all_some_map {A C} (f : A -> option C) (l : list A) :
  (exists bs, all_some (map f l) = Some bs) <-> (forall a, In a l -> f a <> None).
Proof.
  induction l as [|a l IH]; cbn [map all_some].
  - split; [intros _ a [] | intros _; eexists; reflexivity].
  - destruct (f a) as [b|] eqn:E.
    + split.
      * intros (bs & H) x [<-|Hx]; [congruence|].
        destruct (all_some (map f l)) as [bs'|]; [|discriminate].
        apply IH; [eexists; reflexivity | exact Hx].
      * intros H. destruct (proj2 IH) as (bs & ->);
          [intros x Hx; apply H; right; exact Hx|].
        eexists. reflexivity.
    + split; [intros (bs & H); discriminate|].
      intros H. exfalso. apply (H a); [left; reflexivity | exact E].
Qed.

Lemma complete_row_iff (values : list num) (n_lags i : nat) (p : Z * num) :
  (i < length values)%nat ->
  ((exists r, complete_row (make_row values n_lags (i, p)) = Some r)
   <-> (Nat.max n_lags 2 <= i)%nat).
Proof.
  intros Hi. unfold complete_row, make_row.
  cbn [r_lags r_roll_mean_3 r_roll_std_3 fst snd].
  pose proof (all_some_map (fun lag => shift values lag i) (seq 1 n_lags)) as Hall.
  unfold window_3.
  destruct (Nat.ltb_spec i 2) as [Hlt|Hge]; cbn [option_map].
  - split; [|lia]. intros (r & H).
    destruct (all_some _); discriminate.
  - destruct (all_some (map (fun lag => shift values lag i) (seq 1 n_lags))) as [ls|].
    + split; [|intros _; eexists; reflexivity]. intros _.
      destruct Hall as [Hall _].
      destruct n_lags as [|k]; [lia|].
      assert (Hk : shift values (S k) i <> None)
        by (apply Hall; [eexists; reflexivity | apply in_seq; lia]).
      unfold shift in Hk. destruct (Nat.ltb_spec i (S k)); [congruence|lia].
    + split; [intros (r & H); discriminate|]. intros Hmax. exfalso.
      destruct Hall as [_ Hall]. destruct Hall as (bs & H); [|discriminate].
      intros lag Hlag. apply in_seq in Hlag. unfold shift.
      destruct (Nat.ltb_spec i lag); [lia|].
      intros Hn. apply nth_error_None in Hn. lia.
Qed.

Lemma length_filter_some {A C} (g : A -> option C) (p : A -> bool) (l : list A) :
  (forall a, In a l -> ((exists b, g a = Some b) <-> p a = true)) ->
  length (filter_some g l) = length (filter p l).
Proof.
  induction l as [|a l IH]; intros H; [reflexivity|]. cbn [filter_some filter].
  pose proof (H a (or_introl eq_refl)) as Ha.
  assert (IH' : length (filter_some g l) = length (filter p l))
    by (apply IH; intros x Hx; apply H; right; exact Hx).
  destruct (g a) as [b|], (p a); cbn [length]; try (rewrite IH'; reflexivity).
  - destruct Ha as [Ha _]. discriminate Ha. eexists. reflexivity.
  - destruct Ha as [_ Ha]. destruct (Ha eq_refl) as (b & Hb). discriminate.
Qed.

Lemma filter_some_map {A A' C} (f : A -> A') (g : A' -> option C) (l : list A) :
  filter_some g (map f l) = filter_some (fun a => g (f a)) l.
Proof.
  induction l as [|a l IH]; [reflexivity|]. cbn [map filter_some].
  rewrite IH. reflexivity.
Qed.

Lemma count_from {A} (m : nat) (t : list A) :
  forall a,
    length (filter (fun ip => (m <=? fst ip)%nat) (combine (seq a (length t)) t))
    = (length t - (m - a))%nat.
Proof.
  induction t as [|x t IH]; intros a; [reflexivity|].
  cbn [length seq combine filter fst].
  destruct (Nat.leb_spec m a); cbn [length]; rewrite IH; lia.
Qed.

Lemma in_combine_seq {A} (a : nat) (t : list A) (i : nat) (x : A) :
  In (i, x) (combine (seq a (length t)) t) -> (a <= i < a + length t)%nat.
Proof. intros H. apply in_combine_l in H. apply in_seq in H. exact H. Qed.

(** X13. With lag depth [n_lags] the supervised table loses the first
    [max(n_lags, 2)] points of the series (two at least, for the rolling
    window) and keeps the others; [X] and [y] have its length, and when
    no row is left the feature matrix, the target and the column list
    are empty. *)
Theorem make_supervised_row_count (s : series L) (n_lags : nat) :
  let df := fst (fst (fst (_make_supervised s n_lags))) in
  let X := snd (fst (fst (_make_supervised s n_lags))) in
  let y := snd (fst (_make_supervised s n_lags)) in
  let feature_cols := snd (_make_supervised s n_lags) in
  length df = (length s - Nat.max n_lags 2)%nat
  /\ length X = length df /\ length y = length df
  /\ ((length s <= Nat.max n_lags 2)%nat -> feature_cols = [])
  /\ ((Nat.max n_lags 2 < length s)%nat -> length feature_cols = (n_lags + 3)%nat).
Proof.
  assert (Hlen : length (dropna (frame s n_lags))
                 = (length s - Nat.max n_lags 2)%nat).
  { unfold dropna, frame. rewrite filter_some_map.
    rewrite (length_filter_some
               _ (fun ip => (Nat.max n_lags 2 <=? fst ip)%nat)).
    - rewrite count_from. lia.
    - intros [i p] Hin. apply in_combine_seq in Hin. cbn [fst].
      rewrite complete_row_iff by (rewrite length_map; lia).
      symmetry. apply Nat.leb_le. }
  unfold _make_supervised.
  destruct (dropna (frame s n_lags)) as [|r df] eqn:Hdf; cbn [is_empty fst snd].
  - cbn [length] in *. repeat split; try reflexivity; lia.
  - rewrite !length_map. repeat split; try reflexivity.
    + exact Hlen.
    + intros Hle. cbn [length] in Hlen. lia.
    + intros _. cbn [length]. rewrite length_app, length_map, length_seq.
      cbn [length]. lia.
Qed.

End SupervisedFacts.

(** ** Sorting by year *)

Section SortMore.
Context {A : Type} (key : A -> Z).
Import Forecast.

Lemma insert_by_sorted (x : A) (l : list A) :
  StronglySorted Z.le (map key l) ->
  StronglySorted Z.le (map key (insert_by key x l)).
Proof.
  induction l as [|y l IH]; cbn [insert_by map]; intros H.
  - repeat constructor.
  - pose proof H as H'. apply StronglySorted_inv in H'. destruct H' as [Hl Hy].
    destruct (Z.leb_spec (key x) (key y)) as [Hle|Hgt]; cbn [map].
    + constructor; [exact H|]. constructor; [exact Hle|].
      eapply Forall_impl; [|exact Hy]. intros; lia.
    + constructor; [apply IH; exact Hl|].
      apply Forall_forall. intros k Hk. apply in_map_iff in Hk.
      destruct Hk as (z & <- & Hz).
      assert (Hz' : z = x \/ In z l).
      { clear - Hz. induction l as [|w l IH]; cbn [insert_by] in Hz.
        - destruct Hz as [<-|[]]. left. reflexivity.
        - destruct (key x <=? key w).
          + destruct Hz as [<-|Hz]; [left; reflexivity | right; exact Hz].
          + destruct Hz as [<-|Hz]; [right; left; reflexivity|].
            destruct (IH Hz) as [->|H]; [left; reflexivity | right; right; exact H]. }
      destruct Hz' as [->|Hz']; [lia|].
      rewrite Forall_forall in Hy. apply Hy. apply in_map. exact Hz'.
Qed.

Lemma sort_by_is_sorted (l : list A) :
  StronglySorted Z.le (map key (sort_by key l)).
Proof.
  induction l as [|x l IH]; [constructor|].
  unfold sort_by in *. cbn [fold_right]. apply insert_by_sorted. exact IH.
Qed.

Lemma insert_by_length (x : A) (l : list A) :
  length (insert_by key x l) = S (length l).
Proof.
  induction l as [|y l IH]; [reflexivity|]. cbn [insert_by].
  destruct (key x <=? key y); cbn [length]; [reflexivity|]. rewrite IH. reflexivity.
Qed.

Lemma sort_by_length (l : list A) : length (sort_by key l) = length l.
Proof.
  induction l as [|x l IH]; [reflexivity|].
  unfold sort_by in *. cbn [fold_right length]. rewrite insert_by_length, IH. reflexivity.
Qed.

Lemma insert_by_head (x : A) (l : list A) :
  Forall (fun k => key x <= k) (map key l) -> insert_by key x l = x :: l.
Proof.
  destruct l as [|y l]; [reflexivity|]. cbn [map insert_by]. intros H.
  inversion H; subst.
  replace (key x <=? key y) with true by (symmetry; apply Z.leb_le; assumption).
  reflexivity.
Qed.

Lemma filter_insert_by (p : A -> bool) (x : A) (l : list A) :
  StronglySorted Z.le (map key l) ->
  filter p (insert_by key x l)
  = if p x then insert_by key x (filter p l) else filter p l.
Proof.
  induction l as [|y l IH]; cbn [insert_by map]; intros H.
  - cbn [filter]. destruct (p x); reflexivity.
  - apply StronglySorted_inv in H. destruct H as [Hl Hy].
    destruct (Z.leb_spec (key x) (key y)) as [Hle|Hgt].
    + cbn [filter]. destruct (p x) eqn:Px; [|reflexivity].
      destruct (p y) eqn:Py.
      * cbn [insert_by].
        replace (key x <=? key y) with true by (symmetry; apply Z.leb_le; exact Hle).
        reflexivity.
      * symmetry. apply insert_by_head.
        apply Forall_forall. intros k Hk. apply in_map_iff in Hk.
        destruct Hk as (z & <- & Hz). apply filter_In in Hz. destruct Hz as [Hz _].
        rewrite Forall_forall in Hy. specialize (Hy (key z) (in_map key _ _ Hz)). lia.
    + cbn [filter]. rewrite (IH Hl). destruct (p y) eqn:Py, (p x) eqn:Px; try reflexivity.
      cbn [insert_by].
      replace (key x <=? key y) with false by (symmetry; apply Z.leb_gt; exact Hgt).
      reflexivity.
Qed.

(** A stable sort and a filter commute. *)
Lemma filter_sort_by (p : A -> bool) (l : list A) :
  filter p (sort_by key l) = sort_by key (filter p l).
Proof.
  induction l as [|x l IH]; [reflexivity|].
  unfold sort_by in *. cbn [fold_right filter].
  rewrite filter_insert_by by apply sort_by_is_sorted.
  destruct (p x); cbn [fold_right]; rewrite IH; reflexivity.
Qed.

End SortMore.

(** ** Python slices *)

Section SliceFacts.
Context {A : Type}.

(** X14. The train/test split [l[:-test_size]], [l[-test_size:]] cuts
    the rows in two without losing or repeating one.  For a test size
    between 1 and the number of rows, the test part is the last
    [test_size] rows; for a test size of 0 the training part is empty
    and the test part is everything, and the same happens when the test
    size is at least the number of rows. *)
Theorem train_test_split (l : list A) (test_size : Z) :
  slice_to l (- test_size) ++ slice_from l (- test_size) = l
  /\ (0 < test_size <= Z.of_nat (length l) ->
      slice_from l (- test_size) = skipn (length l - Z.to_nat test_size) l
      /\ length (slice_from l (- test_size)) = Z.to_nat test_size
      /\ length (slice_to l (- test_size)) = (length l - Z.to_nat test_size)%nat)
  /\ (test_size = 0 \/ Z.of_nat (length l) <= test_size ->
      slice_to l (- test_size) = [] /\ slice_from l (- test_size) = l).
Proof.
  unfold slice_to, slice_from. split; [apply firstn_skipn|]. split.
  - intros Hts. unfold clamp.
    replace (- test_size <? 0) with true by (symmetry; apply Z.ltb_lt; lia).
    replace (Z.to_nat (Z.max 0 (Z.of_nat (length l) + - test_size)))
      with (length l - Z.to_nat test_size)%nat by lia.
    rewrite length_skipn, length_firstn. repeat split; lia.
  - intros Hts. unfold clamp.
    assert (Hc : (if - test_size <? 0
                  then Z.to_nat (Z.max 0 (Z.of_nat (length l) + - test_size))
                  else Z.to_nat (Z.min (- test_size) (Z.of_nat (length l)))) = 0%nat).
    { destruct (Z.ltb_spec (- test_size) 0); lia. }
    rewrite Hc. split; reflexivity.
Qed.

End SliceFacts.

(** ** The tree-based forecaster *)

Section TreeFacts.
Context {L : Learners}.
Import Forecast.

Lemma supervised_length (s : series L) :
  length (dropna (frame s 3)) = (length s - 3)%nat.
Proof.
  rewrite <- (length_map (fun r => (year r, val r))), supervised_pairs.
  apply length_skipn.
Qed.

Lemma forecast_loop_returns (model : xgb_model) (last_year : Z) (steps : list Z) :
  forall history rows,
    history <> [] ->
    exists final, forecast_loop model last_year steps history rows = Ok final.
Proof.
  induction steps as [|step rest IH]; intros history rows Hne; cbn [forecast_loop].
  - eexists. reflexivity.
  - destruct (future_feats_returns (last_year + step) history Hne) as (feats & -> & _).
    cbn [bind]. apply IH. destruct history; discriminate.
Qed.

Lemma forecast_loop_app (model : xgb_model) (last_year : Z) (s1 s2 : list Z) :
  forall history rows,
    forecast_loop model last_year (s1 ++ s2) history rows
    = (final <- forecast_loop model last_year s1 history rows ;;
       forecast_loop model last_year s2 (fst final) (snd final)).
Proof.
  induction s1 as [|step s1 IH]; intros history rows; cbn [app forecast_loop].
  - reflexivity.
  - destruct (future_feats (last_year + step) history) as [feats|e]; cbn [bind];
      [apply IH | reflexivity].
Qed.

Lemma forecast_loop_extends (model : xgb_model) (last_year : Z) (steps : list Z) :
  forall history rows final,
    forecast_loop model last_year steps history rows = Ok final ->
    exists added, snd final = rows ++ added /\ length added = length steps.
Proof.
  induction steps as [|step rest IH]; intros history rows final; cbn [forecast_loop].
  - intros [= <-]. exists []. cbn. rewrite app_nil_r. auto.
  - destruct (future_feats (last_year + step) history) as [feats|e]; cbn [bind];
      [|discriminate].
    intros H. apply IH in H. destruct H as (added & -> & Hlen).
    eexists (_ :: added). rewrite <- app_assoc. cbn. auto.
Qed.

Lemma py_range_length (lo hi : Z) : length (py_range lo hi) = Z.to_nat (hi - lo).
Proof. unfold py_range. rewrite length_map, length_seq. reflexivity. Qed.

Lemma map_seq_from {C} (n a : nat) :
  forall f : nat -> C, map f (seq a n) = map (fun k => f (a + k)%nat) (seq 0 n).
Proof.
  induction a as [|a IH]; intros f; [reflexivity|].
  rewrite <- seq_shift, map_map, IH. reflexivity.
Qed.

Lemma py_range_split (lo mid hi : Z) :
  lo <= mid <= hi -> py_range lo hi = py_range lo mid ++ py_range mid hi.
Proof.
  intros H. unfold py_range.
  replace (Z.to_nat (hi - lo)) with (Z.to_nat (mid - lo) + Z.to_nat (hi - mid))%nat by lia.
  rewrite seq_app, map_app. f_equal. cbn [Nat.add].
  rewrite map_seq_from. apply map_ext. intros k. lia.
Qed.

(** The two outcomes of the tree-based forecaster. *)
Lemma train_xgb_shape (s : series L) (horizon test_size : Z) (o : outcome L) :
  _train_xgb s horizon test_size = Ok o ->
  (((length s <= 3)%nat \/ len s <= test_size + 4)
   /\ o = (None, None, None, "XGBoost (insufficient data)"%string))
  \/ ((3 < length s)%nat /\ test_size + 4 < len s
      /\ exists future r,
          o = (Some (skipn 3 s), Some future, Some r, "XGBoost"%string)
          /\ map fst future = years_after (last (map fst s) 0) horizon).
Proof.
  intros H. pose proof (supervised_length s) as Hlen.
  pose proof H as H'. revert H'.
  unfold _train_xgb, _make_supervised.
  destruct (dropna (frame s 3)) as [|r0 df] eqn:Hdf; cbn [is_empty orb].
  - intros [= <-]. left. cbn [length] in Hlen. split; [left; lia | reflexivity].
  - destruct (Z.leb_spec (len (r0 :: df)) (test_size + 1)) as [Hle|Hgt].
    + intros [= <-]. left. unfold len in *. cbn [length] in *. split; [right; lia | reflexivity].
    + destruct (xgb_fit _ _) as [model|e]; cbn [bind]; [|discriminate].
      destruct (rmse _ _) as [rm|e]; cbn [bind]; [|discriminate].
      destruct (index _ _) as [ly|e]; cbn [bind]; [|discriminate].
      destruct (forecast_loop _ _ _ _ _) as [final|e]; cbn [bind]; [|discriminate].
      intros [= <-]. right. unfold len in *. cbn [length] in *.
      split; [lia|]. split; [lia|].
      apply train_xgb_segments in H. destruct H as (Hh & _ & Hf).
      exists (snd final), rm. split; [|exact Hf]. rewrite <- Hh. reflexivity.
Qed.

(** X15. The tree-based forecaster reports insufficient data, without
    calling the library, exactly when the series has at most three
    points or at most [test_size + 4]. *)
Theorem train_xgb_insufficient_iff (s : series L) (horizon test_size : Z) :
  _train_xgb s horizon test_size
  = Ok (None, None, None, "XGBoost (insufficient data)"%string)
  <-> (length s <= 3)%nat \/ len s <= test_size + 4.
Proof.
  split.
  - intros H. apply train_xgb_shape in H.
    destruct H as [[Hg _]|(_ & _ & future & r & Ho & _)]; [exact Hg | discriminate].
  - intros Hg. pose proof (supervised_length s) as Hlen.
    unfold _train_xgb, _make_supervised.
    destruct (dropna (frame s 3)) as [|r0 df] eqn:Hdf; cbn [is_empty orb]; [reflexivity|].
    replace (len (r0 :: df) <=? test_size + 1) with true; [reflexivity|].
    symmetry. apply Z.leb_le. unfold len in *. cbn [length] in *. lia.
Qed.

(** X16. When it returns a forecast, the tree-based forecaster returns
    all of history, forecast and RMSE under the name "XGBoost"; the
    forecast has exactly [horizon] rows, none when the horizon is zero
    or negative, for the years that follow the last year of the series. *)
Theorem train_xgb_forecast_rows (s : series L) (horizon test_size : Z)
        (hist future : option (list (Z * num))) (r : option num) (name : string) :
  _train_xgb s horizon test_size = Ok (hist, future, r, name) ->
  name <> "XGBoost (insufficient data)"%string ->
  name = "XGBoost"%string
  /\ hist = Some (skipn 3 s)
  /\ r <> None
  /\ exists rows,
      future = Some rows
      /\ length rows = Z.to_nat horizon
      /\ map fst rows = years_after (last (map fst s) 0) horizon.
Proof.
  intros H Hname. apply train_xgb_shape in H.
  destruct H as [[_ [= _ _ _ Hn]]|(_ & _ & rows & rm & [= -> -> -> ->] & Hy)];
    [contradiction|].
  repeat split; [discriminate|]. exists rows. repeat split; [|exact Hy].
  rewrite <- (length_map fst), Hy. unfold years_after.
  rewrite length_map, py_range_length. f_equal. lia.
Qed.

(** X17. Asking the tree-based forecaster for a longer horizon does not
    change what it forecasts for the nearer years: the forecast for
    [horizon] is the beginning of the forecast for any larger horizon,
    with the same history and the same RMSE. *)
Theorem train_xgb_horizon_prefix (s : series L) (horizon horizon' test_size : Z)
        (hist hist' future future' : list (Z * num)) (r r' : option num)
        (name name' : string) :
  _train_xgb s horizon test_size = Ok (Some hist, Some future, r, name) ->
  _train_xgb s horizon' test_size = Ok (Some hist', Some future', r', name') ->
  horizon <= horizon' ->
  future = firstn (Z.to_nat horizon) future' /\ hist = hist' /\ r = r'.
Proof.
  unfold _train_xgb, _make_supervised.
  destruct (dropna (frame s 3)) as [|r0 df] eqn:Hdf; cbn [is_empty orb]; [discriminate|].
  destruct (len (r0 :: df) <=? test_size + 1); [discriminate|].
  destruct (xgb_fit _ _) as [model|e]; cbn [bind]; [|discriminate].
  destruct (rmse _ _) as [rm|e]; cbn [bind]; [|discriminate].
  destruct (index _ _) as [ly|e]; cbn [bind]; [|discriminate].
  destruct (forecast_loop model ly (py_range 1 (horizon + 1)) _ _)
    as [final|e] eqn:Hloop; cbn [bind]; [|discriminate].
  destruct (forecast_loop model ly (py_range 1 (horizon' + 1)) _ _)
    as [final'|e] eqn:Hloop'; cbn [bind]; [|discriminate].
  intros [= <- <- <- <-] [= <- <- <- <-] Hle.
  split; [|split; reflexivity].
  destruct (Z.le_gt_cases 0 horizon) as [Hpos|Hneg].
  - rewrite (py_range_split 1 (horizon + 1) (horizon' + 1)) in Hloop' by lia.
    rewrite forecast_loop_app, Hloop in Hloop'. cbn [bind] in Hloop'.
    pose proof (forecast_loop_extends _ _ _ _ _ _ Hloop) as (added & Ha & Hlen).
    pose proof (forecast_loop_extends _ _ _ _ _ _ Hloop') as (more & Hm & _).
    cbn [app] in Ha. rewrite Hm, Ha.
    rewrite py_range_length in Hlen.
    replace (Z.to_nat horizon) with (length added + 0)%nat by lia.
    rewrite firstn_app_2. cbn [firstn]. rewrite app_nil_r. reflexivity.
  - replace (py_range 1 (horizon + 1)) with (@nil Z) in Hloop
      by (unfold py_range; replace (Z.to_nat (horizon + 1 - 1)) with 0%nat by lia;
          reflexivity).
    cbn [forecast_loop] in Hloop. injection Hloop as <-. cbn [snd].
    replace (Z.to_nat horizon) with 0%nat by lia. reflexivity.
Qed.

Lemma train_xgb_raises (s : series L) (horizon test_size : Z) (e : exn) :
  _train_xgb s horizon test_size = Raise e ->
  (exists X y, xgb_fit X y = Raise e) \/ (exists y p, rmse y p = Raise e).
Proof.
  unfold _train_xgb, _make_supervised.
  destruct (dropna (frame s 3)) as [|r0 df] eqn:Hdf; cbn [is_empty orb]; [discriminate|].
  destruct (len (r0 :: df) <=? test_size + 1); [discriminate|].
  destruct (xgb_fit _ _) as [model|e0] eqn:Hfit; cbn [bind];
    [|intros [= <-]; left; eauto].
  destruct (rmse _ _) as [rm|e0] eqn:Hr; cbn [bind];
    [|intros [= <-]; right; eauto].
  destruct (index_from_end (map year (r0 :: df)) 1) as (ly & Hly & _);
    [cbn [length map]; lia|].
  change (- Z.of_nat 1) with (-1) in Hly. rewrite Hly. cbn [bind].
  destruct (forecast_loop_returns model ly (py_range 1 (horizon + 1))
                                  (map val (r0 :: df)) []) as (final & ->);
    [discriminate|].
  discriminate.
Qed.

Lemma train_es_raises (s : series L) (horizon test_size : Z) (e : exn) :
  _train_es s horizon test_size = Raise e ->
  (exists t, es_fit t = Raise e) \/ (exists y p, rmse y p = Raise e).
Proof.
  unfold _train_es. destruct (_ <=? _); [discriminate|].
  destruct (es_fit (slice_to s _)) as [fit|e0] eqn:Hfit; cbn [bind];
    [|intros [= <-]; left; eauto].
  destruct (rmse _ _) as [rm|e0] eqn:Hr; cbn [bind];
    [|intros [= <-]; right; eauto].
  destruct (es_fit s) as [full|e0] eqn:Hfull; cbn [bind];
    [discriminate | intros [= <-]; left; eauto].
Qed.

(** X18. [run_forecast] raises nothing of its own: an exception that
    leaves it was raised by a library call, the fit of one of the two
    models or the computation of an RMSE. *)
Theorem run_forecast_raises_only_from_libraries (data : list (row L))
        (country ind : string) (horizon : Z) (e : exn) :
  run_forecast data country ind horizon = Raise e ->
  (exists X y, xgb_fit X y = Raise e)
  \/ (exists t, es_fit t = Raise e)
  \/ (exists y p, rmse y p = Raise e).
Proof.
  unfold run_forecast. destruct (_ || _); [discriminate|].
  destruct (_train_xgb _ _ _) as [x|e0] eqn:Hx; cbn [bind].
  - destruct (_train_es _ _ _) as [es|e0] eqn:Hes; cbn [bind].
    + destruct (sort_candidates _) as [|[[[n rr] h] f] cs]; discriminate.
    + intros [= <-]. apply train_es_raises in Hes. tauto.
  - intros [= <-]. apply train_xgb_raises in Hx. tauto.
Qed.

Lemma train_es_shape (s : series L) (horizon test_size : Z) (o : outcome L) :
  _train_es s horizon test_size = Ok o ->
  (len s <= test_size + 2
   /\ o = (None, None, None, "ExponentialSmoothing (insufficient data)"%string))
  \/ (test_size + 2 < len s
      /\ exists future r,
          o = (Some (sort_by fst s), Some future, Some r,
               "ExponentialSmoothing"%string)).
Proof.
  unfold _train_es. destruct (Z.leb_spec (len s) (test_size + 2)) as [Hle|Hgt].
  - intros [= <-]. left. auto.
  - destruct (es_fit (slice_to s _)) as [fit|e0]; cbn [bind]; [|discriminate].
    destruct (rmse _ _) as [rm|e0]; cbn [bind]; [|discriminate].
    destruct (es_fit s) as [full|e0]; cbn [bind]; [|discriminate].
    intros [= <-]. right. split; [exact Hgt|]. eauto.
Qed.

(** What [run_forecast] returns on a series of five points or more. *)
Lemma run_forecast_result (data : list (row L)) (country ind : string)
      (horizon : Z) (df : list (tagged L)) (name : string) :
  let s := _get_series data country ind in
  (5 <= length s)%nat ->
  run_forecast data country ind horizon = Ok (df, name) ->
  exists hist future,
    df = sort_by tagged_year (tag historical hist ++ tag forecast future)
    /\ ((name = "ExponentialSmoothing"%string /\ hist = s)
        \/ (name = "XGBoost"%string /\ hist = skipn 3 s /\ (7 <= length s)%nat)).
Proof.
  intros s Hlen. unfold run_forecast. fold s.
  replace (is_empty s || (len s <? 5)) with false.
  2:{ symmetry. apply orb_false_iff. split.
      - destruct s; [simpl in Hlen; lia | reflexivity].
      - apply Z.ltb_ge. unfold len. lia. }
  set (test_size := Z.min 5 (Z.max 2 (len s / 3))).
  assert (Hts : 2 <= test_size <= 5 /\ test_size + 2 < len s
                /\ (test_size + 4 < len s -> (7 <= length s)%nat)).
  { subst test_size. unfold len. split; [lia|].
    pose proof (Z.div_le_upper_bound (Z.of_nat (length s)) 3 (Z.of_nat (length s) - 4)).
    pose proof (Z.mul_div_le (Z.of_nat (length s)) 3).
    split; lia. }
  destruct (_train_xgb s horizon test_size) as [x|e0] eqn:Hx; cbn [bind]; [|discriminate].
  destruct (_train_es s horizon test_size) as [es|e0] eqn:Hes; cbn [bind]; [|discriminate].
  apply train_es_shape in Hes.
  destruct Hes as [[Hbad _]|(_ & fe & re & ->)]; [lia|].
  assert (Hsorted : sort_by fst s = s).
  { apply sort_by_sorted, strongly_sorted_lt_le. subst s. apply get_series_sorted. }
  rewrite Hsorted.
  apply train_xgb_shape in Hx.
  destruct Hx as [[_ ->]|(_ & Hg & fx & rx & -> & _)];
    unfold sort_candidates; cbn [candidate_of app fold_left insert_candidate].
  - intros [= <- <-]. exists s, fe. split; [reflexivity|]. left. auto.
  - destruct (flt _ _); intros [= <- <-].
    + exists s, fe. split; [reflexivity|]. left. auto.
    + exists (skipn 3 s), fx. split; [reflexivity|]. right. repeat split.
      apply Hts. exact Hg.
Qed.

(** X19. On a series of five points or more a returned forecast is
    never the insufficient-data result: it is not empty and carries the
    name of one of the two models.  With five or six points it is always
    the smoothing model's, the tree-based model needing seven. *)
Theorem run_forecast_model_by_length (data : list (row L)) (country ind : string)
        (horizon : Z) (df : list (tagged L)) (name : string) :
  let s := _get_series data country ind in
  (5 <= length s)%nat ->
  run_forecast data country ind horizon = Ok (df, name) ->
  df <> []
  /\ (name = "XGBoost"%string \/ name = "ExponentialSmoothing"%string)
  /\ ((length s <= 6)%nat -> name = "ExponentialSmoothing"%string).
Proof.
  intros s Hlen Hrun.
  destruct (run_forecast_result data country ind horizon df name Hlen Hrun)
    as (hist & future & -> & Hcase).
  fold s in Hcase. split; [|split].
  - intros Hnil. apply (f_equal (@length _)) in Hnil.
    rewrite sort_by_length, length_app in Hnil. unfold tag in Hnil.
    rewrite !length_map in Hnil. cbn [length] in Hnil.
    destruct Hcase as [[_ ->]|(_ & -> & H7)]; [lia|].
    rewrite length_skipn in Hnil. lia.
  - destruct Hcase as [[-> _]|(-> & _)]; auto.
  - intros H6. destruct Hcase as [[-> _]|(_ & _ & H7)]; [reflexivity | lia].
Qed.

(** X20. The sequence [run_forecast] returns is in ascending year
    order, whatever the years of the library's forecast. *)
Theorem run_forecast_sorted_by_year (data : list (row L)) (country ind : string)
        (horizon : Z) (df : list (tagged L)) (name : string) :
  run_forecast data country ind horizon = Ok (df, name) ->
  StronglySorted Z.le (map tagged_year df).
Proof.
  unfold run_forecast. destruct (_ || _); [intros [= <- _]; constructor|].
  destruct (_train_xgb _ _ _) as [x|e0]; cbn [bind]; [|discriminate].
  destruct (_train_es _ _ _) as [es|e0]; cbn [bind]; [|discriminate].
  destruct (sort_candidates _) as [|[[[n rr] h] f] cs]; [intros [= <- _]; constructor|].
  intros [= <- _]. apply sort_by_is_sorted.
Qed.

Lemma historical_of_forecast (l : list (Z * num)) :
  filter (has_tag historical) (tag forecast l) = [].
Proof. unfold tag. induction l as [|p l IH]; [reflexivity | exact IH]. Qed.

Lemma historical_of_historical (l : list (Z * num)) :
  filter (has_tag historical) (tag historical l) = tag historical l.
Proof.
  unfold tag. induction l as [|p l IH]; [reflexivity|].
  cbn [map filter has_tag snd]. rewrite IH. reflexivity.
Qed.

(** X21. When [run_forecast] returns the smoothing forecaster's result,
    the historical segment has exactly the years of the series, in
    order, wherever the library puts the forecast years. *)
Theorem smoothing_history_keeps_every_year (data : list (row L))
        (country ind : string) (horizon : Z) (df : list (tagged L)) :
  run_forecast data country ind horizon
  = Ok (df, "ExponentialSmoothing"%string) ->
  segment_years historical df = map fst (_get_series data country ind).
Proof.
  intros Hrun.
  assert (Hlen : (5 <= length (_get_series data country ind))%nat).
  { revert Hrun. unfold run_forecast.
    destruct (is_empty _ || (len _ <? 5)) eqn:Hg; [discriminate|].
    intros _. apply orb_false_iff in Hg. destruct Hg as [_ Hg].
    apply Z.ltb_ge in Hg. unfold len in Hg. lia. }
  destruct (run_forecast_result data country ind horizon df _ Hlen Hrun)
    as (hist & future & -> & Hcase).
  destruct Hcase as [[_ ->]|([=] & _)].
  unfold segment_years. rewrite filter_sort_by.
  rewrite sort_by_sorted.
  - apply segment_years_tagged.
  - rewrite filter_app, historical_of_forecast, historical_of_historical, app_nil_r.
    unfold tag. rewrite map_map. cbn [tagged_year fst].
    apply strongly_sorted_lt_le, get_series_sorted.
Qed.

End TreeFacts.
